(** * mayautils.SceneFile: naming, parsing and versioning of scene files

    A shallow embedding of [src/mayautils.py].  Python strings are lists of
    characters, Python integers are [Z], exceptions are values of
    [result], and the host application (Maya, through PyMEL) together with
    the file system is an interface [Host] that the methods are
    parametrised by.  The object [self] is mutable: every method is a
    function on a state holding the object, the host world and the log of
    the host calls made so far.

    Library functions the source calls are modelled by their behaviour
    in CPython 3.11, on strings of code points below 256:
    [str.split], [str.format] with [03d], [int], slicing,
    [fnmatch.fnmatch], and [os.path] in its POSIX flavour ([join],
    [basename], [dirname], [splitext]), which is what PyMEL's [Path]
    delegates to. *)

From Stdlib Require Import ZArith List Ascii String Lia Bool.
From stdpp Require Import base strings list gmap sorting.

Local Open Scope Z_scope.
Local Open Scope list_scope.

(** ** Python strings *)

Abbreviation str := (list ascii).

Definition py (s : string) : str := list_ascii_of_string s.
Arguments py s%_string.

(** ** Exceptions

    The exception classes that occur.  [RuntimeError] is the one [save]
    handles; the host may raise any of them, with a message. *)

Inductive exn : Type :=
| ValueError
| IndexError
| TypeError
| AttributeError
| RuntimeError (msg : string)
| OSError (msg : string).

Inductive result (A : Type) : Type :=
| Ok (a : A)
| Raise (e : exn).
Arguments Ok {A} a.
Arguments Raise {A} e.

(** [isinstance(e, RuntimeError)], the test of [except RuntimeError] *)
Definition is_RuntimeError (e : exn) : bool :=
  match e with
  | RuntimeError _ => true
  | _ => false
  end.

(** ** [str] methods, [format] and [int]

    The slice [s[1:]] is [drop 1 s]. *)

Module pystr.

(** [s.startswith(p)] *)
Fixpoint startswith (p s : str) : bool :=
  match p, s with
  | [], _ => true
  | a :: p', b :: s' => Ascii.eqb a b && startswith p' s'
  | _ :: _, [] => false
  end.

(** [s.split(sep)] for a non-empty [sep]: the pieces between the
    occurrences of [sep], found left to right without overlap.  [skip]
    counts the characters of a separator that are still to be passed. *)
Fixpoint split_from (sep : str) (skip : nat) (s : str) : list str :=
  match s with
  | [] => [[]]
  | c :: s' =>
      match skip with
      | S k => split_from sep k s'
      | O =>
          if startswith sep s
          then [] :: split_from sep (length sep - 1) s'
          else match split_from sep 0 s' with
               | piece :: rest => (c :: piece) :: rest
               | [] => [[c]]
               end
      end
  end.

Definition split (sep s : str) : list str := split_from sep 0 s.

(** [s.rstrip(c)] for a single character [c] *)
Fixpoint rstrip (c : ascii) (s : str) : str :=
  match s with
  | [] => []
  | a :: s' =>
      match rstrip c s' with
      | [] => if Ascii.eqb a c then [] else [a]
      | r => a :: r
      end
  end.

Definition is_ascii_digit (c : ascii) : bool :=
  let n := N_of_ascii c in (48 <=? n)%N && (n <=? 57)%N.

Definition digit_value (c : ascii) : option N :=
  if is_ascii_digit c then Some (N_of_ascii c - 48)%N else None.

Definition digit_char (d : N) : ascii := ascii_of_N (48 + d).

(** White space as [int] strips it: tab, line feed, vertical tab, form
    feed, carriage return and the space, and of the code points above 127
    the next line and the no-break space.  The separators 0x1c-0x1f are
    not stripped. *)
Definition is_space (c : ascii) : bool :=
  let n := N_of_ascii c in
  ((9 <=? n)%N && (n <=? 13)%N) || (n =? 32)%N
  || (n =? 133)%N || (n =? 160)%N.

Fixpoint lstrip_space (s : str) : str :=
  match s with
  | c :: s' => if is_space c then lstrip_space s' else s
  | [] => []
  end.

Definition strip_space (s : str) : str :=
  rev (lstrip_space (rev (lstrip_space s))).

(** The decimal digits of a natural number, most significant first.  The
    recursion is on [fuel]; [str_of_N] supplies enough of it. *)
Fixpoint digits_from (fuel : nat) (n : N) (acc : str) : str :=
  match fuel with
  | O => acc
  | S fuel' =>
      let acc' := digit_char (n mod 10) :: acc in
      if (n / 10 =? 0)%N then acc' else digits_from fuel' (n / 10) acc'
  end.

Definition str_of_N (n : N) : str := digits_from (S (N.to_nat (N.log2 n))) n [].

(** ["{:03d}".format(z)]: sign first, then zeros up to a total width of
    three, then the digits; longer numbers are not cut. *)
Definition format_03d (z : Z) : str :=
  let ds := str_of_N (Z.abs_N z) in
  if z <? 0
  then "-"%char :: repeat "0"%char (2 - length ds) ++ ds
  else repeat "0"%char (3 - length ds) ++ ds.

(** The digit part of an integer literal: digits, with single underscores
    allowed between two digits.  [seen] tells whether the previous
    character was a digit. *)
Fixpoint int_digits (seen : bool) (acc : N) (s : str) : option N :=
  match s with
  | [] => if seen then Some acc else None
  | c :: s' =>
      match digit_value c with
      | Some d => int_digits true (10 * acc + d)%N s'
      | None =>
          if Ascii.eqb c "_"%char && seen then int_digits false acc s' else None
      end
  end.

(** [s.partition(c)[0]] and [s.partition(c)[2]] for a character [c]: the
    text before the first [c] (all of [s] without one) and the text after
    it (empty without one). *)
Fixpoint before_first (c : ascii) (s : str) : str :=
  match s with
  | [] => []
  | a :: s' => if Ascii.eqb a c then [] else a :: before_first c s'
  end.

Fixpoint after_first (c : ascii) (s : str) : str :=
  match s with
  | [] => []
  | a :: s' => if Ascii.eqb a c then s' else after_first c s'
  end.

(** [int(s)] in base ten: surrounding white space is dropped, one sign is
    allowed, the rest must be a digit part; anything else is a
    [ValueError].  The limit CPython puts on the number of digits of a
    conversion between [int] and [str] (4300 unless changed) is outside
    the model, here and in [format_03d]. *)
Definition int (s : str) : result Z :=
  let t := strip_space s in
  let '(negative, body) :=
    match t with
    | c :: r =>
        if Ascii.eqb c "-"%char then (true, r)
        else if Ascii.eqb c "+"%char then (false, r)
        else (false, t)
    | [] => (false, t)
    end in
  match int_digits false 0%N body with
  | Some n => Ok (if negative then - Z.of_N n else Z.of_N n)
  | None => Raise ValueError
  end.

End pystr.

(** ** [os.path], POSIX flavour *)

Module posixpath.

Definition sep : ascii := "/"%char.

(** The text after the last [c] of [s], and the text up to and including
    it; without a [c] the first is all of [s] and the second is empty. *)
Fixpoint after_last (c : ascii) (s : str) : str :=
  match s with
  | [] => []
  | a :: s' =>
      if existsb (Ascii.eqb c) s' then after_last c s'
      else if Ascii.eqb a c then s' else s
  end.

Definition upto_last (c : ascii) (s : str) : str :=
  take (length s - length (after_last c s)) s.

(** [os.path.join(a, b)] *)
Definition join (a b : str) : str :=
  if pystr.startswith [sep] b then b
  else match last a with
       | None => b
       | Some c => if Ascii.eqb c sep then a ++ b else a ++ sep :: b
       end.

(** [os.path.basename(p)]: [p[p.rfind('/') + 1:]] *)
Definition basename (p : str) : str := after_last sep p.

(** [os.path.dirname(p)]: the head [p[:p.rfind('/') + 1]], with its
    trailing slashes removed unless it consists of slashes only. *)
Definition dirname (p : str) : str :=
  let head := upto_last sep p in
  if forallb (Ascii.eqb sep) head then head else pystr.rstrip sep head.

(** [os.path.splitext(p)]: the extension starts at the last dot of the
    last path component, provided some character before that dot in the
    component is not a dot. *)
Definition splitext (p : str) : str * str :=
  let name := basename p in
  if existsb (Ascii.eqb "."%char) name then
    let e := "."%char :: after_last "."%char name in
    let stem := take (length name - length e) name in
    if forallb (Ascii.eqb "."%char) stem then (p, [])
    else (take (length p - length e) p, e)
  else (p, []).

End posixpath.

(** ** [fnmatch.fnmatch] *)

Module fnmatch.

(** What a bracket class holds: single characters and ranges of
    character codes. *)
Inductive member : Type :=
| One (c : ascii)
| Range (lo hi : ascii).

Inductive item : Type :=
| Star
| AnyChar
| Lit (c : ascii)
| Class (negated : bool) (body : list member).

(** The text before the first [']'] and the text after it. *)
Fixpoint find_close (s : str) : option (str * str) :=
  match s with
  | [] => None
  | c :: s' =>
      if Ascii.eqb c "]"%char then Some ([], s')
      else match find_close s' with
           | Some (b, r) => Some (c :: b, r)
           | None => None
           end
  end.

(** What follows an opening bracket: an optional ['!'], an optional
    [']'] taken literally, then everything up to the next [']'].  Without
    a closing bracket there is no class. *)
Definition bracket (s : str) : option (bool * str * str) :=
  let '(negated, s1) :=
    match s with
    | c :: r => if Ascii.eqb c "!"%char then (true, r) else (false, s)
    | [] => (false, s)
    end in
  let '(first, s2) :=
    match s1 with
    | c :: r => if Ascii.eqb c "]"%char then ([c], r) else ([], s1)
    | [] => ([], s1)
    end in
  match find_close s2 with
  | Some (b, rest) => Some (negated, first ++ b, rest)
  | None => None
  end.

(** The members of the text of a class, read left to right: a character,
    a hyphen and a further character are a range, every other character
    stands for itself.  A range whose upper end lies below its lower end
    is empty and is left out with both its ends. *)
Fixpoint members (body : str) : list member :=
  match body with
  | [] => []
  | lo :: tl =>
      match tl with
      | dash :: hi :: rest =>
          if Ascii.eqb dash "-"%char
          then if (N_of_ascii lo <=? N_of_ascii hi)%N
               then Range lo hi :: members rest
               else members rest
          else One lo :: members tl
      | _ => One lo :: members tl
      end
  end.

(** The class item for the text between the brackets.  After the empty
    ranges are gone, [translate] looks at the first character of what is
    left once more: an exclamation mark that has come to stand there
    negates the class, and a range it began falls apart into the hyphen
    and the upper end. *)
Definition class_item (negated : bool) (body : str) : item :=
  let ms := members body in
  if negated then Class true ms
  else match ms with
       | One c :: rest =>
           if Ascii.eqb c "!"%char then Class true rest else Class false ms
       | Range lo hi :: rest =>
           if Ascii.eqb lo "!"%char
           then Class true (One "-"%char :: One hi :: rest)
           else Class false ms
       | [] => Class false []
       end.

(** [translate]: the pattern as a list of items.  [skip] counts the
    characters of a bracket class that are still to be passed. *)
Fixpoint translate_from (skip : nat) (pat : str) : list item :=
  match pat with
  | [] => []
  | c :: pat' =>
      match skip with
      | S k => translate_from k pat'
      | O =>
          if Ascii.eqb c "*"%char then Star :: translate_from 0 pat'
          else if Ascii.eqb c "?"%char then AnyChar :: translate_from 0 pat'
          else if Ascii.eqb c "["%char then
            match bracket pat' with
            | Some (negated, body, rest) =>
                class_item negated body
                  :: translate_from (length pat' - length rest) pat'
            | None => Lit c :: translate_from 0 pat'
            end
          else Lit c :: translate_from 0 pat'
      end
  end.

Definition translate (pat : str) : list item := translate_from 0 pat.

(** Membership in a class. *)
Definition in_member (c : ascii) (m : member) : bool :=
  match m with
  | One a => Ascii.eqb a c
  | Range lo hi =>
      (N_of_ascii lo <=? N_of_ascii c)%N && (N_of_ascii c <=? N_of_ascii hi)%N
  end.

Definition in_class (body : list member) (c : ascii) : bool :=
  existsb (in_member c) body.

Fixpoint matches (items : list item) (s : str) : bool :=
  match items with
  | [] => match s with [] => true | _ :: _ => false end
  | Star :: items' =>
      (fix star (s : str) : bool :=
         matches items' s
         || match s with [] => false | _ :: s' => star s' end) s
  | AnyChar :: items' =>
      match s with _ :: s' => matches items' s' | [] => false end
  | Lit c :: items' =>
      match s with a :: s' => Ascii.eqb a c && matches items' s' | [] => false end
  | Class negated body :: items' =>
      match s with
      | a :: s' => xorb negated (in_class body a) && matches items' s'
      | [] => false
      end
  end.

(** [fnmatch.fnmatch(name, pat)]; on POSIX [normcase] changes nothing. *)
Definition fnmatch (name pat : str) : bool := matches (translate pat) name.

End fnmatch.

(** ** Values and the host

    The directory attribute is written from outside with any value, so it
    is kept as a dynamically typed value; a [Path] object is a string with
    the tag [PyPath]. *)

Inductive pyval : Type :=
| PyNone
| PyInt (z : Z)
| PyStr (s : str)
| PyPath (s : str).

Definition is_Path (v : pyval) : bool :=
  match v with
  | PyPath _ => true
  | _ => false
  end.

(** The calls made to the host, the file system and the logger. *)
Inductive call : Type :=
| CallSaveAs (p : str)
| CallMakedirs (p : str)
| CallFiles (p : str)
| CallWarning (msg : string).

(** The collaborators: [pmc.system.sceneName], [pmc.system.saveAs],
    [Path.makedirs_p], [Path.files], and what the [Path] constructor makes
    of a value that is not a string (that differs between the versions of
    the path module PyMEL ships). *)
Record Host : Type := {
  world : Type;
  sceneName : world -> str;
  saveAs : str -> world -> result unit * world;
  makedirs_p : str -> world -> result unit * world;
  files : str -> world -> result (list str) * world;
  Path_of_other : pyval -> result str
}.

(** ** The object *)

Record SceneFile : Type := {
  _dir : pyval;
  descriptor : str;
  version : Z;
  ext : str
}.

Definition with_dir (v : pyval) (o : SceneFile) : SceneFile :=
  {| _dir := v; descriptor := descriptor o; version := version o; ext := ext o |}.
Definition with_descriptor (v : str) (o : SceneFile) : SceneFile :=
  {| _dir := _dir o; descriptor := v; version := version o; ext := ext o |}.
Definition with_version (v : Z) (o : SceneFile) : SceneFile :=
  {| _dir := _dir o; descriptor := descriptor o; version := v; ext := ext o |}.
Definition with_ext (v : str) (o : SceneFile) : SceneFile :=
  {| _dir := _dir o; descriptor := descriptor o; version := version o; ext := v |}.

Section Methods.

Context (H : Host).

(** State threaded through the methods; it survives a raised exception. *)
Record state : Type := {
  self : SceneFile;
  hw : world H;
  calls : list call
}.

Definition M (A : Type) : Type := state -> result A * state.

Definition ret {A} (a : A) : M A := fun st => (Ok a, st).
Definition raise {A} (e : exn) : M A := fun st => (Raise e, st).
Definition bind {A B} (m : M A) (k : A -> M B) : M B :=
  fun st =>
    match m st with
    | (Ok a, st') => k a st'
    | (Raise e, st') => (Raise e, st')
    end.
Definition lift {A} (r : result A) : M A := fun st => (r, st).

Local Notation "x <~ m ;; k" := (bind m (fun x => k))
  (at level 100, m at next level, right associativity).
Local Notation "m ;;; k" := (bind m (fun _ => k))
  (at level 100, right associativity).

(** [try: body except <handles>: handler] *)
Definition try_except {A} (body : M A) (handles : exn -> bool) (handler : M A) : M A :=
  fun st =>
    match body st with
    | (Raise e, st') => if handles e then handler st' else (Raise e, st')
    | r => r
    end.

Definition get_self : M SceneFile := fun st => (Ok (self st), st).
Definition update_self (f : SceneFile -> SceneFile) : M unit :=
  fun st => (Ok tt, {| self := f (self st); hw := hw st; calls := calls st |}).

(** A call to the host: logged, then run on the world. *)
Definition host_call {A} (c : call) (op : world H -> result A * world H) : M A :=
  fun st =>
    let '(r, w') := op (hw st) in
    (r, {| self := self st; hw := w'; calls := calls st ++ [c] |}).

Definition log_warning (msg : string) : M unit :=
  fun st => (Ok tt, {| self := self st; hw := hw st; calls := calls st ++ [CallWarning msg] |}).

(** [Path(val)] *)
Definition Path (val : pyval) : result pyval :=
  match val with
  | PyStr s => Ok (PyPath s)
  | PyPath s => Ok (PyPath s)
  | other =>
      match Path_of_other H other with
      | Ok s => Ok (PyPath s)
      | Raise e => Raise e
      end
  end.

(** The text of a value on which a [Path] method is called; other values
    have no such method. *)
Definition as_Path (v : pyval) : result str :=
  match v with
  | PyPath s => Ok s
  | _ => Raise AttributeError
  end.

(** The property [dir] and its setter. *)
Definition dir (o : SceneFile) : pyval := _dir o.

Definition set_dir (val : pyval) : M unit :=
  d <~ lift (Path val) ;; update_self (with_dir d).

Definition basename (o : SceneFile) : str :=
  descriptor o ++ py "_" ++ pystr.format_03d (version o) ++ py "." ++ ext o.

(** [Path(self.dir) / self.basename()] *)
Definition path (o : SceneFile) : result str :=
  match Path (dir o) with
  | Ok d =>
      match as_Path d with
      | Ok d' => Ok (posixpath.join d' (basename o))
      | Raise e => Raise e
      end
  | Raise e => Raise e
  end.

Definition _init_properties_from_path (path : pyval) : M unit :=
  p <~ lift (as_Path path) ;;
  update_self (with_dir (PyPath (posixpath.dirname p))) ;;;
  update_self (with_ext (drop 1 (snd (posixpath.splitext p)))) ;;;
  match pystr.split (py "_") (posixpath.basename p) with
  | [d; version] =>
      update_self (with_descriptor d) ;;;
      match pystr.split (py ".") version with
      | first :: _ =>
          n <~ lift (pystr.int (drop 1 first)) ;;
          update_self (with_version n)
      | [] => raise IndexError
      end
  | _ => raise ValueError
  end.

Definition default_dir : pyval := PyStr (py "").
Definition default_descriptor : str := py "main".
Definition default_version : Z := 1.
Definition default_ext : str := py "ma".

(** [SceneFile(dir, descriptor, version, ext)]; an argument left out is
    [None] here and takes its default.  The result is the new object, or
    the exception that left the constructor. *)
Definition __init__ (dir : option pyval) (descriptor : option str)
    (version : option Z) (ext : option str) (w : world H) : result SceneFile :=
  match Path (default default_dir dir) with
  | Raise e => Raise e
  | Ok d =>
      let o := {| _dir := d;
                  descriptor := default default_descriptor descriptor;
                  version := default default_version version;
                  ext := default default_ext ext |} in
      let scene := sceneName H w in
      match scene with
      | [] => Ok o
      | _ :: _ =>
          match _init_properties_from_path (PyPath scene)
                  {| self := o; hw := w; calls := [] |} with
          | (Ok _, st) => Ok (self st)
          | (Raise e, _) => Raise e
          end
      end
  end.

Definition save_at_path : M unit :=
  o <~ get_self ;;
  p <~ lift (path o) ;;
  host_call (CallSaveAs p) (saveAs H p).

Definition save : M pyval :=
  try_except save_at_path is_RuntimeError
    (log_warning "Missing directories. Creating Directories." ;;;
     o <~ get_self ;;
     d <~ lift (as_Path (dir o)) ;;
     host_call (CallMakedirs d) (makedirs_p H d) ;;;
     save_at_path) ;;;
  ret PyNone.

(** [self.dir.files()] *)
Definition dir_files : M (list str) :=
  o <~ get_self ;;
  d <~ lift (as_Path (dir o)) ;;
  host_call (CallFiles d) (files H d).

(** [int(scene.name.split("_v")[1].split(".")[0])] *)
Definition scene_version (scene : str) : result Z :=
  match pystr.split (py "_v") (posixpath.basename scene) with
  | _ :: second :: _ =>
      match pystr.split (py ".") second with
      | first :: _ => pystr.int first
      | [] => Raise IndexError
      end
  | _ => Raise IndexError
  end.

(** A list comprehension whose element expression may raise: the first
    exception, in list order, ends it. *)
Fixpoint comprehension {A B} (f : A -> result B) (l : list A) : result (list B) :=
  match l with
  | [] => Ok []
  | a :: l' =>
      match f a with
      | Raise e => Raise e
      | Ok b =>
          match comprehension f l' with
          | Raise e => Raise e
          | Ok bs => Ok (b :: bs)
          end
      end
  end.

(** The part of [next_avail_version] after the directory has been listed. *)
Definition next_version_in (o : SceneFile) (listing : list str) : result Z :=
  let pattern := descriptor o ++ py "_v*." ++ ext o in
  let matched_scenes :=
    List.filter (fun file => fnmatch.fnmatch (posixpath.basename file) pattern) listing in
  match comprehension scene_version matched_scenes with
  | Raise e => Raise e
  | Ok versions =>
      let versions := elements (list_to_set versions : gset Z) in
      let versions := merge_sort Z.le versions in
      match last versions with
      | Some v => Ok (v + 1)
      | None => Raise IndexError
      end
  end.

Definition next_avail_version : M Z :=
  dir_files ;;;
  listing <~ dir_files ;;
  o <~ get_self ;;
  lift (next_version_in o listing).

Definition increment_and_save : M pyval :=
  v <~ next_avail_version ;;
  update_self (with_version v) ;;;
  save ;;;
  ret PyNone.

End Methods.

Arguments self {H} s.
Arguments hw {H} s.
Arguments calls {H} s.

(** ** A small host

    A file system with folders and stored files, and a switch that makes
    every save fail as a read-only target does.  As in the host
    application, a save into a folder that does not exist and a save that
    is refused for another reason both raise [RuntimeError]. *)

Module Disk.

Record disk : Type := {
  open_scene : str;
  folders : list str;
  stored : list str;
  locked : bool
}.

Definition disk_saveAs (p : str) (w : disk) : result unit * disk :=
  if locked w then (Raise (RuntimeError "File is read-only"), w)
  else if bool_decide (posixpath.dirname p ∈ folders w)
  then (Ok tt, {| open_scene := p; folders := folders w;
                  stored := stored w ++ [p]; locked := locked w |})
  else (Raise (RuntimeError "Could not save file"), w).

Definition disk_makedirs_p (d : str) (w : disk) : result unit * disk :=
  (Ok tt, {| open_scene := open_scene w; folders := d :: folders w;
             stored := stored w; locked := locked w |}).

Definition disk_files (d : str) (w : disk) : result (list str) * disk :=
  if bool_decide (d ∈ folders w)
  then (Ok (List.filter (fun f => bool_decide (posixpath.dirname f = d)) (stored w)), w)
  else (Raise (OSError "No such file or directory"), w).

Definition disk_Path_of_other (v : pyval) : result str :=
  match v with
  | PyInt z =>
      Ok (if z <? 0 then "-"%char :: pystr.str_of_N (Z.abs_N z)
          else pystr.str_of_N (Z.abs_N z))
  | _ => Raise TypeError
  end.

Definition host : Host := {|
  world := disk;
  sceneName := open_scene;
  saveAs := disk_saveAs;
  makedirs_p := disk_makedirs_p;
  files := disk_files;
  Path_of_other := disk_Path_of_other
|}.

Definition ship (v : Z) : SceneFile :=
  {| _dir := PyPath (py "proj/scenes"); descriptor := py "ship";
     version := v; ext := py "ma" |}.

Definition start (o : SceneFile) (w : disk) : state host :=
  Build_state host o w [].

(** Nothing there yet. *)
Definition empty_disk : disk :=
  {| open_scene := []; folders := []; stored := []; locked := false |}.

(** The folder of the specification's example, with one name twice. *)
Definition ship_disk : disk :=
  {| open_scene := [];
     folders := [py "proj/scenes"];
     stored := [py "proj/scenes/ship_v001.ma"; py "proj/scenes/ship_v003.ma";
                py "proj/scenes/ship_v003.ma"; py "proj/scenes/car_v009.ma"];
     locked := false |}.

Definition locked_ship_disk : disk :=
  {| open_scene := []; folders := folders ship_disk;
     stored := stored ship_disk; locked := true |}.

(** A folder in which one matching name carries no number. *)
Definition draft_disk : disk :=
  {| open_scene := [];
     folders := [py "proj/scenes"];
     stored := [py "proj/scenes/ship_v001.ma"; py "proj/scenes/ship_vfinal.ma"];
     locked := false |}.

(** A folder that holds what two saves of "ship" wrote. *)
Definition saved_disk : disk :=
  {| open_scene := py "proj/scenes/ship_002.ma";
     folders := [py "proj/scenes"];
     stored := [py "proj/scenes/ship_001.ma"; py "proj/scenes/ship_002.ma"];
     locked := false |}.

Definition tank : SceneFile :=
  {| _dir := PyPath (py "proj/scenes"); descriptor := py "tank";
     version := 1; ext := py "ma" |}.

End Disk.

(** ** Vocabulary of the statements *)

(** The objects a caller can hold: built by the constructor, then changed
    by assignments to the public attributes and by the methods, in any
    state of the host. *)
Inductive reachable (H : Host) : SceneFile -> Prop :=
| reach_init dir descriptor version ext w o :
    __init__ H dir descriptor version ext w = Ok o -> reachable H o
| reach_set_dir val st :
    reachable H (self st) -> reachable H (self (snd (set_dir H val st)))
| reach_set_descriptor v o :
    reachable H o -> reachable H (with_descriptor v o)
| reach_set_version v o :
    reachable H o -> reachable H (with_version v o)
| reach_set_ext v o :
    reachable H o -> reachable H (with_ext v o)
| reach_init_properties p st :
    reachable H (self st) ->
    reachable H (self (snd (_init_properties_from_path H p st)))
| reach_save st :
    reachable H (self st) -> reachable H (self (snd (save H st)))
| reach_next_avail_version st :
    reachable H (self st) -> reachable H (self (snd (next_avail_version H st)))
| reach_increment_and_save st :
    reachable H (self st) -> reachable H (self (snd (increment_and_save H st))).

(** The text [_init_properties_from_path] hands to [int]: what stands
    between the underscore of the name and the first dot after it (or the
    end of the name), without its first character. *)
Definition version_text (name : str) : str :=
  drop 1 (pystr.before_first "."%char (pystr.after_first "_"%char name)).

(** The check made on each version below one hundred: its rendering holds
    digits only, and what is left of it after the first character reads as
    the version. *)
Definition small_version_ok (v : Z) : bool :=
  forallb pystr.is_ascii_digit (pystr.format_03d v)
  && match pystr.int (drop 1 (pystr.format_03d v)) with
     | Ok z => z =? v
     | Raise _ => false
     end.

(** A name of the grammar that the parser and the version scan read: the
    descriptor, the marker ["_v"], the version padded to three digits, a
    dot and the extension. *)
Definition versioned_name (descriptor : str) (version : Z) (ext : str) : str :=
  descriptor ++ py "_v" ++ pystr.format_03d version ++ py "." ++ ext.

(** Text in which no character is special to [fnmatch]: no star, no
    question mark, no opening bracket. *)
Definition glob_plain (s : str) : bool :=
  forallb (fun c => negb (Ascii.eqb c "*"%char || Ascii.eqb c "?"%char
                          || Ascii.eqb c "["%char)) s.

(** * Properties *)

(** ** The library model on known values *)

Example split_values :
  pystr.split (py "_") (py "ship_v001.ma") = [py "ship"; py "v001.ma"]
  /\ pystr.split (py "_v") (py "a_v_vb_") = [py "a"; py ""; py "b_"]
  /\ pystr.split (py "aa") (py "aaa") = [py ""; py "a"]
  /\ pystr.split (py ".") (py "") = [py ""].
Proof. repeat split; reflexivity. Qed.

Example format_03d_values :
  pystr.format_03d 7 = py "007"
  /\ pystr.format_03d 1000 = py "1000"
  /\ pystr.format_03d 0 = py "000"
  /\ pystr.format_03d (-7) = py "-07"
  /\ pystr.format_03d (-123) = py "-123".
Proof. repeat split; vm_compute; reflexivity. Qed.

Example int_values :
  pystr.int (py " +1_0 ") = Ok 10
  /\ pystr.int (py "-007") = Ok (-7)
  /\ pystr.int (py "1__0") = Raise ValueError
  /\ pystr.int (py "") = Raise ValueError
  /\ pystr.int (py "v1") = Raise ValueError
  /\ pystr.int (py "- 1") = Raise ValueError.
Proof. repeat split; vm_compute; reflexivity. Qed.

Example dirname_basename_values :
  posixpath.dirname (py "a/b//c") = py "a/b"
  /\ posixpath.dirname (py "//c") = py "//"
  /\ posixpath.dirname (py "c") = py ""
  /\ posixpath.dirname (py "/a/") = py "/a"
  /\ posixpath.basename (py "/a/") = py ""
  /\ posixpath.basename (py "/a/b.c") = py "b.c".
Proof. repeat split; vm_compute; reflexivity. Qed.

Example splitext_values :
  posixpath.splitext (py "a.b/c") = (py "a.b/c", py "")
  /\ posixpath.splitext (py "a/.bashrc") = (py "a/.bashrc", py "")
  /\ posixpath.splitext (py "a/..x.") = (py "a/..x", py ".")
  /\ posixpath.splitext (py "a/x.tar.gz") = (py "a/x.tar", py ".gz")
  /\ posixpath.splitext (py "...") = (py "...", py "").
Proof. repeat split; vm_compute; reflexivity. Qed.

Example join_values :
  posixpath.join (py "a") (py "b") = py "a/b"
  /\ posixpath.join (py "a/") (py "b") = py "a/b"
  /\ posixpath.join (py "") (py "b") = py "b"
  /\ posixpath.join (py "a") (py "/b") = py "/b"
  /\ posixpath.join (py "a") (py "") = py "a/".
Proof. repeat split; vm_compute; reflexivity. Qed.

Example fnmatch_values :
  fnmatch.fnmatch (py "ship_v001.ma") (py "ship_v*.ma") = true
  /\ fnmatch.fnmatch (py "ship_v001.mb") (py "ship_v*.ma") = false
  /\ fnmatch.fnmatch (py "ship_001.ma") (py "ship_v*.ma") = false
  /\ fnmatch.fnmatch (py "ship_v.ma.ma") (py "ship_v*.ma") = true
  /\ fnmatch.fnmatch (py "aXb") (py "a?b*") = true
  /\ fnmatch.fnmatch (py "x_a") (py "x[_v*.m]a") = true
  /\ fnmatch.fnmatch (py "x[_v1.ma") (py "x[_v*.ma") = true
  /\ fnmatch.fnmatch (py "b]") (py "[!]a]]") = true
  /\ fnmatch.fnmatch (py "q5-") (py "[a-z][0-9][a-]") = true.
Proof. repeat split; vm_compute; reflexivity. Qed.

Example fnmatch_class_values :
  fnmatch.fnmatch (py "x") (py "[b-a]") = false
  /\ fnmatch.fnmatch (py "x") (py "[b-a!]") = true
  /\ fnmatch.fnmatch (py "!") (py "[b-a!]") = true
  /\ fnmatch.fnmatch (py "x") (py "[b-a!x]") = false
  /\ fnmatch.fnmatch (py "y") (py "[b-a!x]") = true
  /\ fnmatch.fnmatch (py "k") (py "[b-a!-z]") = true
  /\ fnmatch.fnmatch (py "z") (py "[b-a!-z]") = false
  /\ fnmatch.fnmatch (py "x") (py "[!b-a]") = true
  /\ fnmatch.fnmatch (py "-") (py "[a-b-c]") = true
  /\ fnmatch.fnmatch (py "c") (py "[a-b-c]") = true
  /\ fnmatch.fnmatch (py "^") (py "[^a]") = true
  /\ fnmatch.fnmatch (py "b") (py "[^a]") = false.
Proof. repeat split; vm_compute; reflexivity. Qed.

Example int_space_values :
  pystr.int (py " 12 ") = Ok 12
  /\ pystr.int ("009"%char :: py "12") = Ok 12
  /\ pystr.int ("028"%char :: py "12") = Raise ValueError
  /\ pystr.int (py "12" ++ ["031"%char]) = Raise ValueError
  /\ pystr.int ("160"%char :: py "12") = Ok 12.
Proof. repeat split; vm_compute; reflexivity. Qed.

(** ** Strings *)

Section StringFacts.

Implicit Types (c a : ascii) (s : str).

Lemma existsb_eqb_false c s : existsb (Ascii.eqb c) s = false <-> c ∉ s.
Proof.
  induction s as [|a s IH]; simpl.
  - split; [intros _ Hin; inversion Hin | reflexivity].
  - rewrite orb_false_iff, IH, not_elem_of_cons, Ascii.eqb_neq. reflexivity.
Qed.

Lemma existsb_eqb_true c s : existsb (Ascii.eqb c) s = true <-> c ∈ s.
Proof.
  destruct (existsb (Ascii.eqb c) s) eqn:E.
  - split; [intros _|reflexivity].
    destruct (decide (c ∈ s)) as [|Hn]; [assumption|].
    apply existsb_eqb_false in Hn. congruence.
  - apply existsb_eqb_false in E. split; [discriminate | intros; contradiction].
Qed.

Lemma split_nonempty sep n s : pystr.split_from sep n s <> [].
Proof.
  revert n. induction s as [|a s IH]; intros n; simpl; [discriminate|].
  destruct n; [|apply IH].
  destruct (pystr.startswith sep (a :: s)); [discriminate|].
  destruct (pystr.split_from sep 0 s); discriminate.
Qed.

(** A string without the separator is one piece. *)
Lemma split_char_absent c s : c ∉ s -> pystr.split [c] s = [s].
Proof.
  unfold pystr.split. induction s as [|a s IH]; intros Hn; [reflexivity|].
  apply not_elem_of_cons in Hn as [Hne Hn]. simpl.
  rewrite andb_true_r. apply Ascii.eqb_neq in Hne. rewrite Hne.
  rewrite (IH Hn). reflexivity.
Qed.

(** The first piece ends at the first separator. *)
Lemma split_char_app c s t :
  c ∉ s -> pystr.split [c] (s ++ c :: t) = s :: pystr.split [c] t.
Proof.
  unfold pystr.split. induction s as [|a s IH]; intros Hn; simpl.
  - rewrite Ascii.eqb_refl. reflexivity.
  - apply not_elem_of_cons in Hn as [Hne Hn].
    rewrite andb_true_r. apply Ascii.eqb_neq in Hne. rewrite Hne.
    rewrite (IH Hn). reflexivity.
Qed.

(** Splitting on a character yields one piece more than there are
    occurrences of it. *)
Lemma split_char_length c s :
  length (pystr.split [c] s) = S (count_occ ascii_dec s c).
Proof.
  unfold pystr.split. induction s as [|a s IH]; [reflexivity|].
  simpl. rewrite andb_true_r.
  destruct (ascii_dec a c) as [->|Hne].
  - rewrite Ascii.eqb_refl. simpl. rewrite IH. reflexivity.
  - assert (Ascii.eqb c a = false) as -> by (apply Ascii.eqb_neq; congruence).
    destruct (pystr.split_from [c] 0 s) eqn:E; [discriminate|].
    simpl in *. exact IH.
Qed.

Lemma rstrip_snoc c s : pystr.rstrip c (s ++ [c]) = pystr.rstrip c s.
Proof.
  induction s as [|a s IH]; simpl.
  - rewrite Ascii.eqb_refl. reflexivity.
  - rewrite IH. reflexivity.
Qed.

Lemma rstrip_keeps c s : last s <> Some c -> pystr.rstrip c s = s.
Proof.
  induction s as [|a s IH]; intros Hl; [reflexivity|].
  simpl. destruct s as [|b s].
  - simpl. destruct (Ascii.eqb_spec a c) as [->|]; [|reflexivity].
    exfalso. apply Hl. reflexivity.
  - rewrite IH; [reflexivity|]. exact Hl.
Qed.

Lemma after_last_absent c s : c ∉ s -> posixpath.after_last c s = s.
Proof.
  induction s as [|a s IH]; intros Hn; [reflexivity|].
  apply not_elem_of_cons in Hn as [Hne Hn]. simpl.
  apply existsb_eqb_false in Hn as ->.
  assert (Ascii.eqb a c = false) as -> by (apply Ascii.eqb_neq; congruence).
  reflexivity.
Qed.

Lemma after_last_app c s t : c ∉ t -> posixpath.after_last c (s ++ c :: t) = t.
Proof.
  intros Hn. induction s as [|a s IH]; simpl.
  - apply existsb_eqb_false in Hn as ->. rewrite Ascii.eqb_refl. reflexivity.
  - assert (existsb (Ascii.eqb c) (s ++ c :: t) = true) as ->; [|exact IH].
    apply existsb_eqb_true. set_solver.
Qed.

Lemma upto_last_app c s t : c ∉ t -> posixpath.upto_last c (s ++ c :: t) = s ++ [c].
Proof.
  intros Hn. unfold posixpath.upto_last. rewrite after_last_app by assumption.
  rewrite length_app. simpl.
  replace (length s + S (length t) - length t)%nat with (length (s ++ [c])).
  - replace (s ++ c :: t) with ((s ++ [c]) ++ t) by (rewrite <- app_assoc; reflexivity).
    apply take_app_length.
  - rewrite length_app. simpl. lia.
Qed.

Lemma upto_last_absent c s : c ∉ s -> posixpath.upto_last c s = [].
Proof.
  intros Hn. unfold posixpath.upto_last. rewrite after_last_absent by assumption.
  rewrite Nat.sub_diag. reflexivity.
Qed.

End StringFacts.

(** ** Paths *)

Section PathFacts.

Implicit Types (d name : str).

Lemma join_relative d name :
  posixpath.sep ∉ name ->
  posixpath.join d name =
    match last d with
    | None => name
    | Some c => if Ascii.eqb c posixpath.sep then d ++ name
                else d ++ posixpath.sep :: name
    end.
Proof.
  intros Hn. unfold posixpath.join.
  destruct name as [|a name]; [reflexivity|].
  apply not_elem_of_cons in Hn as [Hne _].
  apply Ascii.eqb_neq in Hne. cbn [pystr.startswith]. rewrite Hne. reflexivity.
Qed.

Lemma basename_join d name :
  posixpath.sep ∉ name -> posixpath.basename (posixpath.join d name) = name.
Proof.
  intros Hn. rewrite join_relative by assumption. unfold posixpath.basename.
  destruct (last d) as [c|] eqn:El.
  - destruct (Ascii.eqb_spec c posixpath.sep) as [->|Hc].
    + apply last_Some in El as [d' ->]. rewrite <- app_assoc. simpl.
      apply after_last_app. assumption.
    + apply after_last_app. assumption.
  - apply after_last_absent. assumption.
Qed.

(** [dirname] undoes [join] for a directory that does not end with a
    separator, and for one made of separators only. *)
Lemma dirname_join d name :
  posixpath.sep ∉ name ->
  (last d = Some posixpath.sep -> Forall (eq posixpath.sep) d) ->
  posixpath.dirname (posixpath.join d name) = d.
Proof.
  intros Hn Hd. rewrite join_relative by assumption. unfold posixpath.dirname.
  destruct (last d) as [c|] eqn:El.
  - destruct (Ascii.eqb_spec c posixpath.sep) as [->|Hc].
    + specialize (Hd eq_refl).
      apply last_Some in El as [d' ->]. rewrite <- app_assoc. simpl.
      rewrite upto_last_app by assumption.
      assert (forallb (Ascii.eqb posixpath.sep) (d' ++ [posixpath.sep]) = true) as ->;
        [|reflexivity].
      apply forallb_forall. intros x Hx. apply Ascii.eqb_eq.
      rewrite Forall_forall in Hd. apply Hd, list_elem_of_In, Hx.
    + rewrite upto_last_app by assumption.
      assert (forallb (Ascii.eqb posixpath.sep) (d ++ [posixpath.sep]) = false) as ->.
      { apply not_true_is_false. intros Hall.
        rewrite forallb_forall in Hall.
        apply last_Some in El as [d' ->].
        specialize (Hall c). rewrite Ascii.eqb_eq in Hall.
        apply Hc. symmetry. apply Hall.
        rewrite !in_app_iff. left. right. left. reflexivity. }
      rewrite rstrip_snoc. apply rstrip_keeps. rewrite El. congruence.
  - apply last_None in El as ->.
    rewrite upto_last_absent by assumption. reflexivity.
Qed.

(** The extension of [stem.e] is [.e] when [e] has no dot and [stem] is
    not made of dots only. *)
Lemma splitext_join d stem e :
  posixpath.sep ∉ stem ++ "."%char :: e ->
  "."%char ∉ e ->
  (exists c, c ∈ stem /\ c <> "."%char) ->
  snd (posixpath.splitext (posixpath.join d (stem ++ "."%char :: e))) = "."%char :: e.
Proof.
  intros Hn He (c & Hc & Hdot). unfold posixpath.splitext.
  rewrite basename_join by assumption.
  assert (existsb (Ascii.eqb "."%char) (stem ++ "."%char :: e) = true) as ->
    by (apply existsb_eqb_true; set_solver).
  rewrite after_last_app by assumption.
  replace (length (stem ++ "."%char :: e) - length ("."%char :: e))%nat
    with (length stem) by (rewrite length_app; lia).
  rewrite take_app_length.
  assert (forallb (Ascii.eqb "."%char) stem = false) as ->; [|reflexivity].
  apply not_true_is_false. intros Hall. rewrite forallb_forall in Hall.
  apply Hdot. symmetry. apply Ascii.eqb_eq, Hall, list_elem_of_In, Hc.
Qed.

End PathFacts.

(** ** Numbers *)

Section NumberFacts.

Lemma digit_value_digit_char (d : N) :
  (d < 10)%N -> pystr.digit_value (pystr.digit_char d) = Some d.
Proof.
  intros Hd. unfold pystr.digit_value, pystr.is_ascii_digit, pystr.digit_char.
  rewrite N_ascii_embedding by lia.
  replace ((48 <=? 48 + d)%N) with true by (symmetry; apply N.leb_le; lia).
  replace ((48 + d <=? 57)%N) with true by (symmetry; apply N.leb_le; lia).
  simpl. f_equal. lia.
Qed.

Lemma is_ascii_digit_digit_char (d : N) :
  (d < 10)%N -> pystr.is_ascii_digit (pystr.digit_char d) = true.
Proof.
  intros Hd. pose proof (digit_value_digit_char d Hd) as Hv.
  unfold pystr.digit_value in Hv.
  destruct (pystr.is_ascii_digit (pystr.digit_char d)); [reflexivity|discriminate].
Qed.

Lemma digits_from_S (f : nat) (n : N) (acc : str) :
  pystr.digits_from (S f) n acc
  = if (n / 10 =? 0)%N then pystr.digit_char (n mod 10) :: acc
    else pystr.digits_from f (n / 10) (pystr.digit_char (n mod 10) :: acc).
Proof. reflexivity. Qed.

(** Reading back the digits written for [n] continues from the value [n]. *)
Lemma int_digits_digits_from (f : nat) :
  forall (n : N) (acc : str) (seen : bool),
    (n < 2 ^ N.of_nat (S f))%N ->
    pystr.int_digits seen 0 (pystr.digits_from (S f) n acc)
    = pystr.int_digits true n acc.
Proof.
  induction f as [|f IH]; intros n acc seen Hn.
  - assert (n / 10 = 0)%N as Hq by (apply N.div_small; simpl in Hn; lia).
    rewrite digits_from_S, Hq. simpl N.eqb. cbv iota.
    cbn [pystr.int_digits].
    rewrite digit_value_digit_char by (apply N.mod_lt; lia).
    rewrite N.mod_small by (simpl in Hn; lia).
    reflexivity.
  - rewrite digits_from_S.
    destruct (N.eqb_spec (n / 10) 0) as [Hq|Hq].
    + cbn [pystr.int_digits].
      rewrite digit_value_digit_char by (apply N.mod_lt; lia).
      rewrite N.mod_small; [reflexivity|].
      apply N.div_small_iff in Hq; lia.
    + rewrite IH.
      * cbn [pystr.int_digits].
        rewrite digit_value_digit_char by (apply N.mod_lt; lia).
        f_equal. pose proof (N.div_mod n 10). lia.
      * replace (N.of_nat (S (S f))) with (N.succ (N.of_nat (S f))) in Hn by lia.
        rewrite N.pow_succ_r' in Hn.
        apply N.Div0.div_lt_upper_bound. lia.
Qed.

Lemma log2_bound (n : N) : (n < 2 ^ N.of_nat (S (N.to_nat (N.log2 n))))%N.
Proof.
  replace (N.of_nat (S (N.to_nat (N.log2 n)))) with (N.succ (N.log2 n)) by lia.
  destruct n as [|p]; [reflexivity|].
  apply N.log2_spec. lia.
Qed.

Lemma int_digits_str_of_N (n : N) (seen : bool) :
  pystr.int_digits seen 0 (pystr.str_of_N n) = Some n.
Proof.
  unfold pystr.str_of_N. rewrite int_digits_digits_from by apply log2_bound.
  reflexivity.
Qed.

Lemma digits_from_digits (f : nat) :
  forall (n : N) (acc : str),
    Forall (fun c => pystr.is_ascii_digit c = true) acc ->
    Forall (fun c => pystr.is_ascii_digit c = true) (pystr.digits_from f n acc).
Proof.
  induction f as [|f IH]; intros n acc Hacc; [exact Hacc|].
  rewrite digits_from_S.
  assert (Forall (fun c => pystr.is_ascii_digit c = true)
            (pystr.digit_char (n mod 10) :: acc)) as Hacc'.
  { constructor; [|exact Hacc].
    apply is_ascii_digit_digit_char, N.mod_lt. lia. }
  destruct (n / 10 =? 0)%N; [exact Hacc'|]. apply IH, Hacc'.
Qed.

Lemma digits_from_nonempty (f : nat) (n : N) (acc : str) :
  pystr.digits_from (S f) n acc <> [].
Proof.
  revert n acc. induction f as [|f IH]; intros n acc; rewrite digits_from_S.
  - destruct (n / 10 =? 0)%N; discriminate.
  - destruct (n / 10 =? 0)%N; [discriminate|apply IH].
Qed.

Lemma int_digits_zeros (k : nat) (s : str) (seen : bool) :
  s <> [] ->
  pystr.int_digits seen 0 (repeat "0"%char k ++ s)
  = pystr.int_digits (if k is O then seen else true) 0 s.
Proof.
  intros Hs. revert seen. induction k as [|k IH]; intros seen; [reflexivity|].
  simpl repeat. simpl app. cbn [pystr.int_digits].
  change (pystr.digit_value "0"%char) with (Some 0%N). cbv iota.
  rewrite IH. destruct k; reflexivity.
Qed.

Lemma digit_not_space (c : ascii) :
  pystr.is_ascii_digit c = true -> pystr.is_space c = false.
Proof.
  unfold pystr.is_ascii_digit, pystr.is_space.
  destruct (N_of_ascii c) as [|p]; [discriminate|].
  intros Hd. apply andb_true_iff in Hd as [H1 H2].
  apply N.leb_le in H1, H2.
  repeat (apply orb_false_iff; split).
  - apply andb_false_iff. right. apply N.leb_gt. lia.
  - apply N.eqb_neq. lia.
  - apply N.eqb_neq. lia.
  - apply N.eqb_neq. lia.
Qed.

Lemma digit_not_sign (c : ascii) :
  pystr.is_ascii_digit c = true ->
  Ascii.eqb c "-"%char = false /\ Ascii.eqb c "+"%char = false.
Proof.
  intros Hd. split; apply Ascii.eqb_neq; intros ->; discriminate Hd.
Qed.

Lemma strip_space_id (s : str) :
  Forall (fun c => pystr.is_space c = false) s -> pystr.strip_space s = s.
Proof.
  assert (forall t, Forall (fun c => pystr.is_space c = false) t ->
                    pystr.lstrip_space t = t) as Hl.
  { intros [|c t] Ht; [reflexivity|]. simpl.
    apply Forall_cons in Ht as [-> _]. reflexivity. }
  intros Hs. unfold pystr.strip_space.
  rewrite (Hl s Hs), Hl; [apply rev_involutive|].
  rewrite Forall_forall in *. intros c Hc. apply Hs.
  rewrite list_elem_of_In in *. apply in_rev. exact Hc.
Qed.

Lemma str_of_N_digits (n : N) :
  Forall (fun c => pystr.is_ascii_digit c = true) (pystr.str_of_N n).
Proof. apply digits_from_digits. constructor. Qed.

Lemma str_of_N_nonempty (n : N) : pystr.str_of_N n <> [].
Proof. apply digits_from_nonempty. Qed.

(** Zeros in front of the digits of a number are digits too. *)
Lemma padded_digits (k : nat) (n : N) :
  Forall (fun c => pystr.is_ascii_digit c = true)
    (repeat "0"%char k ++ pystr.str_of_N n).
Proof.
  apply Forall_app. split; [|apply str_of_N_digits].
  apply Forall_forall. intros c Hc. apply list_elem_of_In, repeat_spec in Hc.
  subst c. reflexivity.
Qed.

(** [int] reads digits, padded or not, as the number they were written for. *)
Lemma int_padded (k : nat) (n : N) :
  pystr.int (repeat "0"%char k ++ pystr.str_of_N n) = Ok (Z.of_N n).
Proof.
  pose proof (padded_digits k n) as Hd.
  unfold pystr.int. rewrite strip_space_id.
  2:{ eapply Forall_impl; [exact Hd|]. intros c. apply digit_not_space. }
  destruct (repeat "0"%char k ++ pystr.str_of_N n) as [|c r] eqn:E.
  { apply app_eq_nil in E as [_ E]. exfalso. exact (str_of_N_nonempty n E). }
  apply Forall_cons in Hd as [Hc _].
  destruct (digit_not_sign c Hc) as [-> ->].
  rewrite <- E, int_digits_zeros by apply str_of_N_nonempty.
  rewrite int_digits_str_of_N. reflexivity.
Qed.

(** Nothing of the number is lost in the rendering: [int] reads it back. *)
Lemma int_format_03d (z : Z) : pystr.int (pystr.format_03d z) = Ok z.
Proof.
  unfold pystr.format_03d. destruct (Z.ltb_spec z 0) as [Hz|Hz].
  - pose proof (padded_digits (2 - length (pystr.str_of_N (Z.abs_N z))) (Z.abs_N z)) as Hd.
    unfold pystr.int. rewrite strip_space_id.
    2:{ constructor; [reflexivity|].
        eapply Forall_impl; [exact Hd|]. intros c. apply digit_not_space. }
    change (Ascii.eqb "-"%char "-"%char) with true. cbv iota.
    rewrite int_digits_zeros by apply str_of_N_nonempty.
    rewrite int_digits_str_of_N. f_equal. lia.
  - rewrite int_padded. f_equal. lia.
Qed.

(** The rendering has at least three characters. *)
Lemma format_03d_length (z : Z) : (3 <= length (pystr.format_03d z))%nat.
Proof.
  unfold pystr.format_03d. destruct (z <? 0); simpl;
    rewrite length_app, repeat_length; lia.
Qed.

(** Versions below one hundred are rendered as a zero and two digits, and
    the two digits alone read as the version. *)
Lemma small_versions_checked :
  forallb (fun n => small_version_ok (Z.of_nat n)) (seq 0 100) = true.
Proof. vm_compute. reflexivity. Qed.

Lemma small_version (v : Z) :
  0 <= v < 100 ->
  Forall (fun c => pystr.is_ascii_digit c = true) (pystr.format_03d v)
  /\ pystr.int (drop 1 (pystr.format_03d v)) = Ok v.
Proof.
  intros Hv. pose proof small_versions_checked as Hall.
  rewrite forallb_forall in Hall.
  specialize (Hall (Z.to_nat v)). rewrite Z2Nat.id in Hall by lia.
  unfold small_version_ok in Hall.
  apply andb_true_iff in Hall as [Hd Hi]; [|apply in_seq; lia].
  split.
  - apply Forall_forall. intros c Hc. rewrite forallb_forall in Hd.
    apply Hd, list_elem_of_In, Hc.
  - destruct (pystr.int (drop 1 (pystr.format_03d v))) as [z|]; [|discriminate].
    apply Z.eqb_eq in Hi. congruence.
Qed.

End NumberFacts.

(** ** Composing names *)

Lemma format_03d_chars (z : Z) :
  Forall (fun c => pystr.is_ascii_digit c = true \/ c = "-"%char) (pystr.format_03d z).
Proof.
  unfold pystr.format_03d. destruct (z <? 0).
  - constructor; [right; reflexivity|].
    eapply Forall_impl; [apply padded_digits|]. intros c Hc. left. exact Hc.
  - eapply Forall_impl; [apply padded_digits|]. intros c Hc. left. exact Hc.
Qed.

(** C1 (as the code has it): [basename] renders the version zero-padded to
    three digits and never cut -- the segment between the underscore and
    the dot has at least three characters and [int] reads the version back
    from it -- but it writes no marker ['v']: the segment holds digits and
    at most a sign.  Version 7 of "ship" is named [ship_007.ma] and
    version 1000 [ship_1000.ma], where the claim has [_v007] and [_v1000]. *)
Theorem basename_version_segment :
  (forall o : SceneFile, exists seg : str,
      basename o = descriptor o ++ py "_" ++ seg ++ py "." ++ ext o
      /\ (3 <= length seg)%nat
      /\ pystr.int seg = Ok (version o)
      /\ "v"%char ∉ seg)
  /\ basename (Disk.ship 7) = py "ship_007.ma"
  /\ basename (Disk.ship 1000) = py "ship_1000.ma".
Proof.
  split; [|split; vm_compute; reflexivity].
  intros o. exists (pystr.format_03d (version o)).
  split; [reflexivity|]. split; [apply format_03d_length|].
  split; [apply int_format_03d|].
  intros Hv. pose proof (format_03d_chars (version o)) as Hc.
  rewrite Forall_forall in Hc. destruct (Hc _ Hv) as [Hd|Hd]; discriminate Hd.
Qed.

(** ** Parsing names *)

Section Parsing.

Context (H : Host).

(** What [_init_properties_from_path] does on a [Path], step by step: the
    directory and the extension are written first, the descriptor after
    the split on the underscore, the version last. *)
Lemma init_properties_run (p : str) (st : state H) :
  _init_properties_from_path H (PyPath p) st =
    let o1 := with_ext (drop 1 (snd (posixpath.splitext p)))
                (with_dir (PyPath (posixpath.dirname p)) (self st)) in
    match pystr.split (py "_") (posixpath.basename p) with
    | [d; v] =>
        match pystr.split (py ".") v with
        | first :: _ =>
            match pystr.int (drop 1 first) with
            | Ok n =>
                (Ok tt, Build_state H (with_version n (with_descriptor d o1))
                          (hw st) (calls st))
            | Raise e =>
                (Raise e, Build_state H (with_descriptor d o1) (hw st) (calls st))
            end
        | [] =>
            (Raise IndexError, Build_state H (with_descriptor d o1) (hw st) (calls st))
        end
    | _ => (Raise ValueError, Build_state H o1 (hw st) (calls st))
    end.
Proof.
  unfold _init_properties_from_path, bind, lift, update_self, raise, as_Path.
  cbv beta iota zeta.
  destruct (pystr.split (py "_") (posixpath.basename p)) as [|d [|v [|x l]]];
    try reflexivity.
  destruct (pystr.split (py ".") v) as [|first l]; [reflexivity|].
  destruct (pystr.int (drop 1 first)); reflexivity.
Qed.

End Parsing.

Section RoundTrip.

Context (H : Host).

Lemma digits_exclude (c : ascii) (s : str) :
  pystr.is_ascii_digit c = false ->
  Forall (fun a => pystr.is_ascii_digit a = true) s -> c ∉ s.
Proof.
  intros Hc Hs Hin. rewrite Forall_forall in Hs. specialize (Hs c Hin). congruence.
Qed.

(** Where the round trip does hold: a scene file whose directory is a
    [Path] that does not end with a separator (or is made of separators
    only), whose descriptor has no underscore and no separator, whose
    extension has no dot, no underscore and no separator, and whose
    version lies in [1, 99], is recovered exactly by parsing the path
    composed from it, whatever the object parsed into held before.  Below
    one hundred the character the parser drops is a padding zero. *)
Theorem parse_compose_round_trip (x : SceneFile) (d : str) (st : state H) :
  _dir x = PyPath d ->
  (last d = Some posixpath.sep -> Forall (eq posixpath.sep) d) ->
  "_"%char ∉ descriptor x ->
  posixpath.sep ∉ descriptor x ->
  "."%char ∉ ext x ->
  "_"%char ∉ ext x ->
  posixpath.sep ∉ ext x ->
  1 <= version x <= 99 ->
  exists p : str,
    path H x = Ok p
    /\ _init_properties_from_path H (PyPath p) st
       = (Ok tt, Build_state H x (hw st) (calls st)).
Proof.
  intros Hdir Hd Hdu Hds Hed Heu Hes Hv.
  destruct (small_version (version x)) as [Hfd Hfi]; [lia|].
  set (fmt := pystr.format_03d (version x)) in *.
  assert (basename x = descriptor x ++ "_"%char :: fmt ++ "."%char :: ext x) as Hname
    by reflexivity.
  assert (posixpath.sep ∉ basename x) as Hsep.
  { rewrite Hname. rewrite not_elem_of_app, not_elem_of_cons, not_elem_of_app,
      not_elem_of_cons.
    repeat split; try assumption; try discriminate.
    apply digits_exclude; [reflexivity|assumption]. }
  exists (posixpath.join d (basename x)). split.
  { unfold path, dir. rewrite Hdir. reflexivity. }
  rewrite init_properties_run. cbv zeta.
  rewrite basename_join, dirname_join by assumption.
  assert (snd (posixpath.splitext (posixpath.join d (basename x)))
          = "."%char :: ext x) as ->.
  { rewrite Hname.
    replace (descriptor x ++ "_"%char :: fmt ++ "."%char :: ext x)
      with ((descriptor x ++ "_"%char :: fmt) ++ "."%char :: ext x)
      by (rewrite <- app_assoc; reflexivity).
    apply splitext_join.
    - rewrite <- app_assoc. simpl. rewrite <- Hname. exact Hsep.
    - assumption.
    - exists "_"%char. split; [|discriminate].
      apply elem_of_app. right. left. }
  rewrite Hname.
  change (py "_") with ["_"%char]. change (py ".") with ["."%char].
  rewrite split_char_app by assumption.
  rewrite split_char_absent.
  2:{ rewrite not_elem_of_app, not_elem_of_cons.
      repeat split; try assumption; try discriminate.
      apply digits_exclude; [reflexivity|assumption]. }
  rewrite split_char_app by (apply digits_exclude; [reflexivity|assumption]).
  rewrite Hfi. f_equal.
  destruct x as [xd xdesc xv xe]. simpl in *. subst xd. reflexivity.
Qed.

End RoundTrip.

(** The round trip on a concrete scene file. *)
Lemma parse_compose_round_trip_witness :
  exists p : str,
    path Disk.host (Disk.ship 7) = Ok p
    /\ _init_properties_from_path Disk.host (PyPath p)
         (Disk.start (Disk.ship 1) Disk.ship_disk)
       = (Ok tt, Build_state Disk.host (Disk.ship 7) Disk.ship_disk []).
Proof.
  apply (parse_compose_round_trip Disk.host (Disk.ship 7) (py "proj/scenes")
           (Disk.start (Disk.ship 1) Disk.ship_disk)).
  - reflexivity.
  - intros Hl. vm_compute in Hl. discriminate Hl.
  - compute_done.
  - compute_done.
  - compute_done.
  - compute_done.
  - compute_done.
  - simpl. lia.
Defined.

(** The parser splits the whole name on the underscore, so an underscore
    in the extension stops it: for "ship", version 1, extension "m_a" the
    composed path does not parse, its name has two underscores and the
    unpacking raises. *)
Lemma round_trip_fails_on_underscore_in_ext :
  let x := {| _dir := PyPath (py "proj/scenes"); descriptor := py "ship";
              version := 1; ext := py "m_a" |} in
  ("_"%char ∉ descriptor x)
  /\ ("."%char ∉ ext x)
  /\ 1 <= version x <= 999
  /\ path Disk.host x = Ok (py "proj/scenes/ship_001.m_a")
  /\ fst (_init_properties_from_path Disk.host (PyPath (py "proj/scenes/ship_001.m_a"))
            (Disk.start x Disk.ship_disk))
     = Raise ValueError.
Proof.
  cbv zeta. split; [compute_done|]. split; [compute_done|].
  split; [simpl; lia|]. split; vm_compute; reflexivity.
Qed.

(** A directory written with a trailing separator comes back without it. *)
Lemma round_trip_drops_trailing_separator :
  let x := {| _dir := PyPath (py "proj/scenes/"); descriptor := py "ship";
              version := 1; ext := py "ma" |} in
  path Disk.host x = Ok (py "proj/scenes/ship_001.ma")
  /\ _init_properties_from_path Disk.host (PyPath (py "proj/scenes/ship_001.ma"))
       (Disk.start x Disk.ship_disk)
     = (Ok tt, Build_state Disk.host (Disk.ship 1) Disk.ship_disk []).
Proof. split; vm_compute; reflexivity. Qed.

(** C2 (as the code has it): the round trip fails from version 100 on.
    The scene file "ship", version 100, extension "ma" in [proj/scenes]
    meets the conditions -- no underscore in the descriptor, no dot in the
    extension, a version in [1, 999] -- and its path is composed as
    [proj/scenes/ship_100.ma]; parsing that path succeeds and gives
    directory, descriptor and extension back, but version 0: the parser
    drops the first character of the version text, where [basename] has
    written the digit 1 and no marker. *)
Theorem round_trip_loses_version_100 :
  ("_"%char ∉ descriptor (Disk.ship 100))
  /\ ("."%char ∉ ext (Disk.ship 100))
  /\ 1 <= version (Disk.ship 100) <= 999
  /\ path Disk.host (Disk.ship 100) = Ok (py "proj/scenes/ship_100.ma")
  /\ _init_properties_from_path Disk.host (PyPath (py "proj/scenes/ship_100.ma"))
       (Disk.start (Disk.ship 100) Disk.ship_disk)
     = (Ok tt, Build_state Disk.host (Disk.ship 0) Disk.ship_disk [])
  /\ Disk.ship 0 <> Disk.ship 100.
Proof.
  split; [compute_done|]. split; [compute_done|]. split; [simpl; lia|].
  split; [vm_compute; reflexivity|]. split; [vm_compute; reflexivity|].
  discriminate.
Qed.

(** ** Construction *)

(** C5 (as the code has it): built without arguments while the host has no
    scene open, the object has descriptor "main", version 1, extension
    "ma" and the empty path as directory; its [basename()] is
    [main_001.ma], where the claim has [main_v001.ma]. *)
Theorem default_construction (H : Host) (w : world H) :
  sceneName H w = [] ->
  let o := {| _dir := PyPath (py ""); descriptor := py "main";
              version := 1; ext := py "ma" |} in
  __init__ H None None None None w = Ok o
  /\ basename o = py "main_001.ma".
Proof.
  intros Hs. cbv zeta. split; [|vm_compute; reflexivity].
  unfold __init__. simpl. rewrite Hs. reflexivity.
Qed.

Lemma default_construction_witness :
  __init__ Disk.host None None None None Disk.ship_disk
  = Ok {| _dir := PyPath (py ""); descriptor := py "main";
          version := 1; ext := py "ma" |}
  /\ basename {| _dir := PyPath (py ""); descriptor := py "main";
                 version := 1; ext := py "ma" |} = py "main_001.ma".
Proof.
  apply (default_construction Disk.host Disk.ship_disk). reflexivity.
Defined.

(** ** Failures of the parser *)

Section ParseErrors.

Context (H : Host).

Implicit Types (c : ascii) (s : str).

Lemma int_raises_ValueError s e : pystr.int s = Raise e -> e = ValueError.
Proof.
  unfold pystr.int.
  destruct (match pystr.strip_space s with
            | [] => (false, pystr.strip_space s)
            | c :: r =>
                if Ascii.eqb c "-"%char then (true, r)
                else if Ascii.eqb c "+"%char then (false, r)
                else (false, pystr.strip_space s)
            end) as [negative body].
  destruct (pystr.int_digits false 0 body); [discriminate|].
  intros [= <-]. reflexivity.
Qed.

Lemma before_first_absent c s : c ∉ s -> pystr.before_first c s = s.
Proof.
  induction s as [|a s IH]; intros Hn; [reflexivity|].
  apply not_elem_of_cons in Hn as [Hne Hn]. simpl.
  assert (Ascii.eqb a c = false) as -> by (apply Ascii.eqb_neq; congruence).
  rewrite IH by assumption. reflexivity.
Qed.

(** The pieces of a split on a character: the text before its first
    occurrence, then the pieces of the text after it. *)
Lemma split_char_present c s :
  c ∈ s ->
  pystr.split [c] s
  = pystr.before_first c s :: pystr.split [c] (pystr.after_first c s).
Proof.
  unfold pystr.split. induction s as [|a s IH]; intros Hin; [inversion Hin|].
  simpl. rewrite andb_true_r. rewrite (Ascii.eqb_sym c a).
  destruct (Ascii.eqb_spec a c) as [->|Hne]; [reflexivity|].
  apply elem_of_cons in Hin as [->|Hin]; [contradiction|].
  rewrite (IH Hin). reflexivity.
Qed.

Lemma split_char_head c s : hd [] (pystr.split [c] s) = pystr.before_first c s.
Proof.
  destruct (decide (c ∈ s)) as [Hin|Hn].
  - rewrite split_char_present by assumption. reflexivity.
  - rewrite split_char_absent, before_first_absent by assumption. reflexivity.
Qed.

Lemma count_occ_after_first c s :
  c ∈ s ->
  count_occ ascii_dec s c = S (count_occ ascii_dec (pystr.after_first c s) c).
Proof.
  induction s as [|a s IH]; intros Hin; [inversion Hin|].
  simpl. destruct (ascii_dec a c) as [->|Hne].
  - rewrite Ascii.eqb_refl. reflexivity.
  - assert (Ascii.eqb a c = false) as -> by (apply Ascii.eqb_neq; congruence).
    apply elem_of_cons in Hin as [->|Hin]; [contradiction|]. apply IH, Hin.
Qed.

Lemma count_occ_zero c s : count_occ ascii_dec s c = 0%nat <-> c ∉ s.
Proof.
  rewrite list_elem_of_In. symmetry. apply count_occ_not_In.
Qed.

(** With exactly one underscore the split has two pieces. *)
Lemma split_one_occurrence c s :
  count_occ ascii_dec s c = 1%nat ->
  pystr.split [c] s = [pystr.before_first c s; pystr.after_first c s].
Proof.
  intros Hc.
  assert (c ∈ s) as Hin.
  { destruct (decide (c ∈ s)) as [|Hn]; [assumption|].
    apply count_occ_zero in Hn. lia. }
  rewrite split_char_present by assumption.
  rewrite (count_occ_after_first c s Hin) in Hc.
  rewrite split_char_absent; [reflexivity|].
  apply count_occ_zero. lia.
Qed.

(** C6 (amended): on a [Path], parsing succeeds exactly when the name has
    one underscore and [int] accepts the version text -- what stands
    between that underscore and the first dot after it, or the end of the
    name when no dot follows, less its first character; in every other
    case a [ValueError] leaves the method.  A missing dot is no error. *)
Theorem parse_outcome (p : str) (st : state H) :
  fst (_init_properties_from_path H (PyPath p) st) =
    if decide (count_occ ascii_dec (posixpath.basename p) "_"%char = 1%nat)
    then match pystr.int (version_text (posixpath.basename p)) with
         | Ok _ => Ok tt
         | Raise _ => Raise ValueError
         end
    else Raise ValueError.
Proof.
  rewrite init_properties_run. cbv zeta. change (py "_") with ["_"%char].
  set (name := posixpath.basename p).
  destruct (decide (count_occ ascii_dec name "_"%char = 1%nat)) as [Hc|Hc].
  - rewrite split_one_occurrence by assumption.
    change (py ".") with ["."%char].
    pose proof (split_char_head "."%char (pystr.after_first "_"%char name)) as Hh.
    pose proof (split_nonempty ["."%char] 0 (pystr.after_first "_"%char name)) as Hne.
    fold (pystr.split ["."%char] (pystr.after_first "_"%char name)) in Hne.
    destruct (pystr.split ["."%char] (pystr.after_first "_"%char name))
      as [|first l]; [contradiction|].
    simpl in Hh. subst first. fold (version_text name).
    destruct (pystr.int (version_text name)) as [z|e] eqn:Ei; [reflexivity|].
    apply int_raises_ValueError in Ei as ->. reflexivity.
  - pose proof (split_char_length "_"%char name) as Hl.
    destruct (pystr.split ["_"%char] name) as [|d [|v [|x l]]]; try reflexivity.
    simpl in Hl. exfalso. apply Hc. lia.
Qed.

End ParseErrors.

(** C6 (as stated) fails: the name [ship_v001] has no dot after its
    underscore, and it parses -- descriptor "ship", version 1, an empty
    extension. *)
Lemma parse_accepts_name_without_dot :
  ("."%char ∉ posixpath.basename (py "proj/ship_v001"))
  /\ _init_properties_from_path Disk.host (PyPath (py "proj/ship_v001"))
       (Disk.start (Disk.ship 7) Disk.ship_disk)
     = (Ok tt,
        Build_state Disk.host
          {| _dir := PyPath (py "proj"); descriptor := py "ship";
             version := 1; ext := py "" |} Disk.ship_disk []).
Proof. split; [compute_done|vm_compute; reflexivity]. Qed.

(** ** The next version *)

Section Versions.

Context (H : Host).

(** Listing the directory twice, as the method does, and then working on
    the second listing. *)
Lemma next_avail_version_run (st : state H) (d : str) (l0 l : list str)
    (w1 w2 : world H) :
  _dir (self st) = PyPath d ->
  files H d (hw st) = (Ok l0, w1) ->
  files H d w1 = (Ok l, w2) ->
  next_avail_version H st
  = (next_version_in (self st) l,
     Build_state H (self st) w2 (calls st ++ [CallFiles d; CallFiles d])).
Proof.
  intros Hd H1 H2.
  unfold next_avail_version, dir_files, bind, get_self, lift, host_call, dir.
  cbv beta iota zeta. rewrite Hd. simpl. rewrite H1. simpl.
  rewrite Hd. simpl. rewrite H2. simpl.
  rewrite <- app_assoc. reflexivity.
Qed.

Lemma comprehension_Ok {A B} (f : A -> result B) (l : list A) :
  (forall a, a ∈ l -> exists b, f a = Ok b) ->
  exists bs, comprehension f l = Ok bs
             /\ length bs = length l
             /\ (forall b, b ∈ bs <-> exists a, a ∈ l /\ f a = Ok b).
Proof.
  induction l as [|a l IH]; intros Hall.
  - exists []. split; [reflexivity|]. split; [reflexivity|].
    intros b. split; [intros Hb; inversion Hb|].
    intros (a & Ha & _). inversion Ha.
  - destruct (Hall a) as [b Hb]; [left|].
    destruct IH as (bs & Hbs & Hlen & Hmem).
    { intros a' Ha'. apply Hall. right. exact Ha'. }
    exists (b :: bs). simpl. rewrite Hb, Hbs.
    split; [reflexivity|]. split; [simpl; congruence|].
    intros b'. rewrite elem_of_cons, Hmem. split.
    + intros [->|(a' & Ha' & Hf)].
      * exists a. split; [left|exact Hb].
      * exists a'. split; [right; exact Ha'|exact Hf].
    + intros (a' & Ha' & Hf). apply elem_of_cons in Ha' as [->|Ha'].
      * left. congruence.
      * right. exists a'. split; assumption.
Qed.

(** The last element of a sorted list is its greatest. *)
Lemma last_of_sorted (l : list Z) (m : Z) :
  Sorted Z.le l -> last l = Some m -> forall x, x ∈ l -> x <= m.
Proof.
  intros Hs. apply Sorted_StronglySorted in Hs; [|intros x y z; apply Z.le_trans].
  induction Hs as [|a l Hs IH Ha]; intros Hl x Hx; [inversion Hx|].
  destruct l as [|b l].
  - simpl in Hl. injection Hl as <-. apply list_elem_of_singleton in Hx as ->. lia.
  - specialize (IH Hl). apply elem_of_cons in Hx as [->|Hx]; [|apply IH, Hx].
    rewrite Forall_forall in Ha.
    assert (m ∈ b :: l) as Hm by (apply last_Some_elem_of; exact Hl).
    apply Ha, Hm.
Qed.

(** Deduplicating and sorting keeps the members. *)
Lemma sorted_set_members (vs : list Z) (x : Z) :
  x ∈ merge_sort Z.le (elements (list_to_set vs : gset Z)) <-> x ∈ vs.
Proof.
  rewrite merge_sort_Permutation, elem_of_elements, elem_of_list_to_set.
  reflexivity.
Qed.

(** C4: when the directory can be listed and no name in the listing
    matches [{descriptor}_v*.{ext}], [next_avail_version] leaves with an
    [IndexError] -- the index [-1] into the empty list of versions. *)
Theorem next_avail_version_without_match (st : state H) (d : str)
    (l0 l : list str) (w1 w2 : world H) :
  _dir (self st) = PyPath d ->
  files H d (hw st) = (Ok l0, w1) ->
  files H d w1 = (Ok l, w2) ->
  Forall (fun file =>
            fnmatch.fnmatch (posixpath.basename file)
              (descriptor (self st) ++ py "_v*." ++ ext (self st)) = false) l ->
  next_avail_version H st
  = (Raise IndexError,
     Build_state H (self st) w2 (calls st ++ [CallFiles d; CallFiles d])).
Proof.
  intros Hd H1 H2 Hno.
  rewrite (next_avail_version_run st d l0 l w1 w2) by assumption.
  f_equal. unfold next_version_in.
  assert (List.filter
            (fun file => fnmatch.fnmatch (posixpath.basename file)
                           (descriptor (self st) ++ py "_v*." ++ ext (self st))) l
          = []) as ->; [|reflexivity].
  clear H2. induction Hno as [|f l Hf Hno IH]; [reflexivity|].
  cbn [List.filter]. rewrite Hf. exact IH.
Qed.

(** C3 (amended): when the directory can be listed, at least one name in
    the listing matches [{descriptor}_v*.{ext}] and every matching name
    yields a version (its text after the first "_v", up to the first dot,
    is accepted by [int]), [next_avail_version] returns one more than the
    greatest of these versions. *)
Theorem next_avail_version_is_max_plus_one (st : state H) (d : str)
    (l0 l : list str) (w1 w2 : world H) :
  let matches := fun file =>
    fnmatch.fnmatch (posixpath.basename file)
      (descriptor (self st) ++ py "_v*." ++ ext (self st)) = true in
  _dir (self st) = PyPath d ->
  files H d (hw st) = (Ok l0, w1) ->
  files H d w1 = (Ok l, w2) ->
  (exists file, file ∈ l /\ matches file) ->
  (forall file, file ∈ l -> matches file -> exists v, scene_version file = Ok v) ->
  exists m : Z,
    (exists file, file ∈ l /\ matches file /\ scene_version file = Ok m)
    /\ (forall file v, file ∈ l -> matches file -> scene_version file = Ok v -> v <= m)
    /\ next_avail_version H st
       = (Ok (m + 1),
          Build_state H (self st) w2 (calls st ++ [CallFiles d; CallFiles d])).
Proof.
  intros matches Hd H1 H2 (f0 & Hf0 & Hm0) Hall.
  rewrite (next_avail_version_run st d l0 l w1 w2) by assumption.
  unfold next_version_in.
  set (pattern := descriptor (self st) ++ py "_v*." ++ ext (self st)) in *.
  set (matched := List.filter _ l).
  assert (forall f, f ∈ matched <-> f ∈ l /\ matches f) as Hmatched.
  { intros f. unfold matched. rewrite !list_elem_of_In, filter_In. reflexivity. }
  destruct (comprehension_Ok scene_version matched) as (vs & -> & Hlen & Hvs).
  { intros f Hf. apply Hmatched in Hf as [Hf Hm]. apply Hall; assumption. }
  set (sorted := merge_sort Z.le (elements (list_to_set vs : gset Z))).
  destruct (last sorted) as [m|] eqn:El.
  - exists m.
    assert (m ∈ vs) as Hmv by (apply sorted_set_members, last_Some_elem_of, El).
    split; [|split; [|reflexivity]].
    + apply Hvs in Hmv as (f & Hf & Hfm). apply Hmatched in Hf as [Hf Hm].
      exists f. repeat split; assumption.
    + intros f v Hf Hm Hfv.
      apply (last_of_sorted sorted); [apply Sorted_merge_sort; apply _|exact El|].
      apply sorted_set_members, Hvs. exists f. split; [|exact Hfv].
      apply Hmatched. split; assumption.
  - exfalso. apply last_None in El.
    assert (f0 ∈ matched) as Hin by (apply Hmatched; split; assumption).
    destruct (Hall f0 Hf0 Hm0) as [v Hv].
    assert (v ∈ sorted) as Hvin.
    { apply sorted_set_members, Hvs. exists f0. split; assumption. }
    rewrite El in Hvin. inversion Hvin.
Qed.

End Versions.

(** The example of the specification: versions 1 and 3, the latter twice,
    next to another asset; the next version of "ship" is 4. *)
Lemma next_avail_version_example :
  next_avail_version Disk.host (Disk.start (Disk.ship 1) Disk.ship_disk)
  = (Ok 4, Build_state Disk.host (Disk.ship 1) Disk.ship_disk
             [CallFiles (py "proj/scenes"); CallFiles (py "proj/scenes")]).
Proof. vm_compute. reflexivity. Qed.

Lemma next_avail_version_is_max_plus_one_witness :
  exists m : Z,
    (exists file, file ∈ Disk.stored Disk.ship_disk
                  /\ fnmatch.fnmatch (posixpath.basename file) (py "ship_v*.ma") = true
                  /\ scene_version file = Ok m)
    /\ (forall file v, file ∈ Disk.stored Disk.ship_disk ->
                       fnmatch.fnmatch (posixpath.basename file) (py "ship_v*.ma") = true ->
                       scene_version file = Ok v -> v <= m)
    /\ next_avail_version Disk.host (Disk.start (Disk.ship 1) Disk.ship_disk)
       = (Ok (m + 1),
          Build_state Disk.host (Disk.ship 1) Disk.ship_disk
            [CallFiles (py "proj/scenes"); CallFiles (py "proj/scenes")]).
Proof.
  apply (next_avail_version_is_max_plus_one Disk.host
           (Disk.start (Disk.ship 1) Disk.ship_disk) (py "proj/scenes")
           (Disk.stored Disk.ship_disk) (Disk.stored Disk.ship_disk)
           Disk.ship_disk Disk.ship_disk).
  - reflexivity.
  - vm_compute. reflexivity.
  - vm_compute. reflexivity.
  - exists (py "proj/scenes/ship_v001.ma"). split; [left|vm_compute; reflexivity].
  - intros file Hin Hm. simpl in Hin.
    repeat (apply elem_of_cons in Hin as [->|Hin]).
    + exists 1. vm_compute. reflexivity.
    + exists 3. vm_compute. reflexivity.
    + exists 3. vm_compute. reflexivity.
    + vm_compute in Hm. discriminate Hm.
    + inversion Hin.
Defined.

Lemma next_avail_version_without_match_witness :
  next_avail_version Disk.host (Disk.start Disk.tank Disk.ship_disk)
  = (Raise IndexError,
     Build_state Disk.host Disk.tank Disk.ship_disk
       [CallFiles (py "proj/scenes"); CallFiles (py "proj/scenes")]).
Proof.
  apply (next_avail_version_without_match Disk.host
           (Disk.start Disk.tank Disk.ship_disk) (py "proj/scenes")
           (Disk.stored Disk.ship_disk) (Disk.stored Disk.ship_disk)
           Disk.ship_disk Disk.ship_disk).
  - reflexivity.
  - vm_compute. reflexivity.
  - vm_compute. reflexivity.
  - compute_done.
Defined.

(** C3 (as stated) fails: in a listing where [ship_v001.ma] and
    [ship_vfinal.ma] both match the pattern, no version is returned; the
    second name has no number and [int] raises. *)
Lemma next_avail_version_raises_on_unnumbered_match :
  files Disk.host (py "proj/scenes") Disk.draft_disk
  = (Ok [py "proj/scenes/ship_v001.ma"; py "proj/scenes/ship_vfinal.ma"],
     Disk.draft_disk)
  /\ fnmatch.fnmatch (py "ship_v001.ma") (py "ship_v*.ma") = true
  /\ fnmatch.fnmatch (py "ship_vfinal.ma") (py "ship_v*.ma") = true
  /\ next_avail_version Disk.host (Disk.start (Disk.ship 1) Disk.draft_disk)
     = (Raise ValueError,
        Build_state Disk.host (Disk.ship 1) Disk.draft_disk
          [CallFiles (py "proj/scenes"); CallFiles (py "proj/scenes")]).
Proof. repeat split; vm_compute; reflexivity. Qed.

(** ** Saving *)

Section Saving.

Context (H : Host).

Lemma path_of_Path (o : SceneFile) (d : str) :
  _dir o = PyPath d -> path H o = Ok (posixpath.join d (basename o)).
Proof. intros Hd. unfold path, dir. rewrite Hd. reflexivity. Qed.

(** One attempt: the host is asked once, at the composed path. *)
Lemma save_at_path_run (st : state H) (d : str) :
  _dir (self st) = PyPath d ->
  save_at_path H st
  = (fst (saveAs H (posixpath.join d (basename (self st))) (hw st)),
     Build_state H (self st)
       (snd (saveAs H (posixpath.join d (basename (self st))) (hw st)))
       (calls st ++ [CallSaveAs (posixpath.join d (basename (self st)))])).
Proof.
  intros Hd. unfold save_at_path, bind, get_self, lift, host_call.
  cbv beta iota zeta. rewrite (path_of_Path _ d Hd).
  destruct (saveAs H (posixpath.join d (basename (self st))) (hw st)).
  reflexivity.
Qed.

(** C7 (amended): [save] asks the host to save at the composed path.  If
    that call raises a [RuntimeError] -- whatever its reason -- a warning
    is logged, the directory tree is created and the host is asked once
    more; an exception of the directory creation or of the second attempt
    leaves [save], and there is no third attempt.  An exception of the
    first attempt that is not a [RuntimeError] leaves [save] at once. *)
Theorem save_outcome (st : state H) (d : str) :
  _dir (self st) = PyPath d ->
  let o := self st in
  let p := posixpath.join d (basename o) in
  let warning := CallWarning "Missing directories. Creating Directories." in
  let '(r1, w1) := saveAs H p (hw st) in
  match r1 with
  | Ok _ => save H st = (Ok PyNone, Build_state H o w1 (calls st ++ [CallSaveAs p]))
  | Raise e =>
      if is_RuntimeError e then
        let '(r2, w2) := makedirs_p H d w1 in
        match r2 with
        | Raise e2 =>
            save H st
            = (Raise e2,
               Build_state H o w2 (calls st ++ [CallSaveAs p; warning; CallMakedirs d]))
        | Ok _ =>
            let '(r3, w3) := saveAs H p w2 in
            save H st
            = (match r3 with Ok _ => Ok PyNone | Raise e3 => Raise e3 end,
               Build_state H o w3
                 (calls st ++ [CallSaveAs p; warning; CallMakedirs d; CallSaveAs p]))
        end
      else save H st = (Raise e, Build_state H o w1 (calls st ++ [CallSaveAs p]))
  end.
Proof.
  intros Hd. cbv zeta.
  unfold save, try_except, bind. rewrite (save_at_path_run st d Hd).
  destruct (saveAs H (posixpath.join d (basename (self st))) (hw st)) as [r1 w1].
  cbn [fst snd]. destruct r1 as [[]|e]; [reflexivity|].
  destruct (is_RuntimeError e); [|reflexivity].
  unfold log_warning, get_self, lift, host_call, ret, dir.
  cbn [self hw calls]. rewrite Hd. cbn [as_Path].
  destruct (makedirs_p H d w1) as [r2 w2]. destruct r2 as [[]|e2].
  - match goal with
    | |- context [save_at_path H ?s] => rewrite (save_at_path_run s d Hd)
    end.
    cbn [self hw calls].
    destruct (saveAs H (posixpath.join d (basename (self st))) w2) as [r3 w3].
    cbn [fst snd]. rewrite <- !app_assoc. destruct r3 as [[]|e3]; reflexivity.
  - rewrite <- !app_assoc. reflexivity.
Qed.

(** [save] and [next_avail_version] leave the object as it is. *)
Lemma save_at_path_self (st : state H) : self (snd (save_at_path H st)) = self st.
Proof.
  unfold save_at_path, bind, get_self, lift, host_call. cbv beta iota zeta.
  destruct (path H (self st)); [|reflexivity].
  destruct (saveAs H a (hw st)). reflexivity.
Qed.

Lemma save_self (st : state H) : self (snd (save H st)) = self st.
Proof.
  unfold save, try_except, bind, ret.
  pose proof (save_at_path_self st) as H1.
  destruct (save_at_path H st) as [[[]|e] st1]; cbn [snd] in *; [exact H1|].
  destruct (is_RuntimeError e); [|exact H1].
  unfold log_warning, get_self, lift, host_call. cbn [self hw calls].
  destruct (as_Path (dir (self st1))) as [d|e1]; [|exact H1].
  destruct (makedirs_p H d (hw st1)) as [[[]|e2] w2]; [|exact H1].
  match goal with
  | |- context [save_at_path H ?s] =>
      pose proof (save_at_path_self s) as H2;
      destruct (save_at_path H s) as [[[]|e3] st3]
  end; cbn [snd self] in *; congruence.
Qed.

Lemma dir_files_self (st : state H) : self (snd (dir_files H st)) = self st.
Proof.
  unfold dir_files, bind, get_self, lift, host_call. cbv beta iota zeta.
  destruct (as_Path (dir (self st))) as [d|e]; [|reflexivity].
  destruct (files H d (hw st)). reflexivity.
Qed.

Lemma next_avail_version_self (st : state H) :
  self (snd (next_avail_version H st)) = self st.
Proof.
  unfold next_avail_version, bind, get_self, lift.
  pose proof (dir_files_self st) as H1.
  destruct (dir_files H st) as [[l0|e] st1]; cbn [snd] in *; [|exact H1].
  pose proof (dir_files_self st1) as H2.
  destruct (dir_files H st1) as [[l|e] st2]; cbn [snd] in *; congruence.
Qed.

(** C8: [increment_and_save] writes the resolved version into the object
    before it saves; when the save then fails, the exception leaves the
    method and the object keeps the new version -- the state is the one
    [save] left, nothing is put back. *)
Theorem increment_and_save_keeps_version_on_failure
    (st st1 st2 : state H) (v : Z) (e : exn) :
  next_avail_version H st = (Ok v, st1) ->
  save H (Build_state H (with_version v (self st1)) (hw st1) (calls st1))
  = (Raise e, st2) ->
  increment_and_save H st = (Raise e, st2)
  /\ version (self st2) = v
  /\ self st2 = with_version v (self st).
Proof.
  intros Hn Hs.
  assert (self st2 = with_version v (self st1)) as H2.
  { pose proof (save_self (Build_state H (with_version v (self st1)) (hw st1) (calls st1)))
      as Hp.
    rewrite Hs in Hp. exact Hp. }
  assert (self st1 = self st) as H1.
  { pose proof (next_avail_version_self st) as Hp. rewrite Hn in Hp. exact Hp. }
  split; [|split].
  - unfold increment_and_save, bind, update_self. rewrite Hn.
    cbv beta iota. rewrite Hs. reflexivity.
  - rewrite H2. reflexivity.
  - rewrite H2, H1. reflexivity.
Qed.

End Saving.

(** A save into a folder that is not there yet: one failed attempt, the
    warning, the folder, one more attempt. *)
Lemma save_outcome_witness :
  save Disk.host (Disk.start (Disk.ship 1) Disk.empty_disk)
  = (Ok PyNone,
     Build_state Disk.host (Disk.ship 1)
       {| Disk.open_scene := py "proj/scenes/ship_001.ma";
          Disk.folders := [py "proj/scenes"];
          Disk.stored := [py "proj/scenes/ship_001.ma"];
          Disk.locked := false |}
       [CallSaveAs (py "proj/scenes/ship_001.ma");
        CallWarning "Missing directories. Creating Directories.";
        CallMakedirs (py "proj/scenes");
        CallSaveAs (py "proj/scenes/ship_001.ma")]).
Proof.
  exact (save_outcome Disk.host (Disk.start (Disk.ship 1) Disk.empty_disk)
           (py "proj/scenes") eq_refl).
Defined.

(** C7 (as stated) fails: the folder exists and the host refuses the save
    because the target is read-only; that failure is a [RuntimeError] too,
    so it is caught, the folder is created again and the save is tried a
    second time before the exception leaves [save]. *)
Lemma save_catches_other_runtime_errors :
  (py "proj/scenes" ∈ Disk.folders Disk.locked_ship_disk)
  /\ saveAs Disk.host (py "proj/scenes/ship_001.ma") Disk.locked_ship_disk
     = (Raise (RuntimeError "File is read-only"), Disk.locked_ship_disk)
  /\ fst (save Disk.host (Disk.start (Disk.ship 1) Disk.locked_ship_disk))
     = Raise (RuntimeError "File is read-only")
  /\ calls (snd (save Disk.host (Disk.start (Disk.ship 1) Disk.locked_ship_disk)))
     = [CallSaveAs (py "proj/scenes/ship_001.ma");
        CallWarning "Missing directories. Creating Directories.";
        CallMakedirs (py "proj/scenes");
        CallSaveAs (py "proj/scenes/ship_001.ma")].
Proof. split; [compute_done|]. repeat split; vm_compute; reflexivity. Qed.

Lemma increment_and_save_keeps_version_on_failure_witness :
  increment_and_save Disk.host (Disk.start (Disk.ship 1) Disk.locked_ship_disk)
  = (Raise (RuntimeError "File is read-only"),
     Build_state Disk.host (Disk.ship 4)
       {| Disk.open_scene := [];
          Disk.folders := [py "proj/scenes"; py "proj/scenes"];
          Disk.stored := Disk.stored Disk.ship_disk;
          Disk.locked := true |}
       [CallFiles (py "proj/scenes"); CallFiles (py "proj/scenes");
        CallSaveAs (py "proj/scenes/ship_004.ma");
        CallWarning "Missing directories. Creating Directories.";
        CallMakedirs (py "proj/scenes");
        CallSaveAs (py "proj/scenes/ship_004.ma")])
  /\ version (Disk.ship 4) = 4
  /\ Disk.ship 4 = with_version 4 (Disk.ship 1).
Proof.
  apply (increment_and_save_keeps_version_on_failure Disk.host
           (Disk.start (Disk.ship 1) Disk.locked_ship_disk)
           (Build_state Disk.host (Disk.ship 1) Disk.locked_ship_disk
              [CallFiles (py "proj/scenes"); CallFiles (py "proj/scenes")])).
  - vm_compute. reflexivity.
  - vm_compute. reflexivity.
Defined.

(** C10: [save] and [increment_and_save] hand back [None] whenever they
    return; the saved path is never returned.  That holds for a save that
    succeeds at once and for one that succeeds on the second attempt. *)
Theorem save_returns_None :
  (forall (H : Host) (st : state H),
      match fst (save H st) with
      | Ok v => v = PyNone
      | Raise _ => True
      end)
  /\ (forall (H : Host) (st : state H),
         match fst (increment_and_save H st) with
         | Ok v => v = PyNone
         | Raise _ => True
         end)
  /\ fst (save Disk.host (Disk.start (Disk.ship 1) Disk.ship_disk)) = Ok PyNone
  /\ fst (save Disk.host (Disk.start (Disk.ship 1) Disk.empty_disk)) = Ok PyNone
  /\ fst (increment_and_save Disk.host (Disk.start (Disk.ship 1) Disk.ship_disk))
     = Ok PyNone.
Proof.
  split; [|split; [|repeat split; vm_compute; reflexivity]].
  - intros H st. unfold save, bind, ret.
    destruct (try_except H _ _ _ st) as [[[]|e] st1]; [reflexivity|exact I].
  - intros H st. unfold increment_and_save, bind, ret, update_self.
    destruct (next_avail_version H st) as [[v|e] st1]; [|exact I].
    destruct (save H _) as [[r|e] st2]; [reflexivity|exact I].
Qed.

(** ** The directory attribute *)

Section Directory.

Context (H : Host).

Lemma Path_is_Path (val v : pyval) : Path H val = Ok v -> is_Path v = true.
Proof.
  unfold Path. destruct val; try (destruct (Path_of_other H _));
    intros [= <-]; reflexivity.
Qed.

Lemma set_dir_is_Path (val : pyval) (st : state H) :
  is_Path (_dir (self st)) = true ->
  is_Path (_dir (self (snd (set_dir H val st)))) = true.
Proof.
  intros Hi. unfold set_dir, bind, lift, update_self.
  destruct (Path H val) as [v|e] eqn:E; [|exact Hi].
  simpl. apply (Path_is_Path val), E.
Qed.

Lemma init_properties_is_Path (p : pyval) (st : state H) :
  is_Path (_dir (self st)) = true ->
  is_Path (_dir (self (snd (_init_properties_from_path H p st)))) = true.
Proof.
  intros Hi. destruct p as [|z|s|s];
    try (unfold _init_properties_from_path, bind, lift; simpl; exact Hi).
  rewrite init_properties_run. cbv zeta.
  destruct (pystr.split (py "_") (posixpath.basename s)) as [|d [|v [|x l]]];
    try reflexivity.
  destruct (pystr.split (py ".") v) as [|first l]; [reflexivity|].
  destruct (pystr.int (drop 1 first)); reflexivity.
Qed.

(** C9: the directory of every object a caller can hold is a [Path]: the
    constructor and the setter of [dir] pass the value through [Path(...)],
    parsing stores what [dirname] of a [Path] gives, and nothing else
    writes the attribute. *)
Theorem dir_is_a_Path (o : SceneFile) :
  reachable H o -> is_Path (_dir o) = true.
Proof.
  induction 1 as [dir descriptor version ext w o Hinit
                 |val st _ IH|v o _ IH|v o _ IH|v o _ IH
                 |p st _ IH|st _ IH|st _ IH|st _ IH].
  - unfold __init__ in Hinit.
    destruct (Path H (default default_dir dir)) as [d|e] eqn:E; [|discriminate].
    apply Path_is_Path in E.
    destruct (sceneName H w) as [|c scene]; [injection Hinit as <-; exact E|].
    match type of Hinit with
    | context [_init_properties_from_path H ?p ?s] =>
        pose proof (init_properties_is_Path p s E) as Hp;
        destruct (_init_properties_from_path H p s) as [[[]|e] st1]
    end; [|discriminate].
    injection Hinit as <-. exact Hp.
  - apply set_dir_is_Path, IH.
  - exact IH.
  - exact IH.
  - exact IH.
  - apply init_properties_is_Path, IH.
  - rewrite save_self. exact IH.
  - rewrite next_avail_version_self. exact IH.
  - unfold increment_and_save, bind, update_self, ret.
    pose proof (next_avail_version_self H st) as H1.
    destruct (next_avail_version H st) as [[v|e] st1]; cbn [snd] in *;
      [|rewrite H1; exact IH].
    match goal with
    | |- context [save H ?s] =>
        pose proof (save_self H s) as H2; destruct (save H s) as [[r|e] st2]
    end; cbn [snd self] in *; rewrite H2; simpl; rewrite H1; exact IH.
Qed.

End Directory.

(** An object built with a number as directory, then given a string, then
    filled from a scene path. *)
Lemma dir_is_a_Path_witness :
  is_Path
    (_dir (self (snd (_init_properties_from_path Disk.host
                        (PyPath (py "assets/props/tank_v012.mb"))
                        (Disk.start
                           (self (snd (set_dir Disk.host (PyStr (py "shots/sq010"))
                                         (Disk.start
                                            {| _dir := PyPath (py "5");
                                               descriptor := py "main";
                                               version := 1; ext := py "ma" |}
                                            Disk.ship_disk))))
                           Disk.ship_disk)))))
  = true.
Proof.
  apply (dir_is_a_Path Disk.host).
  apply (reach_init_properties Disk.host _ (Disk.start _ Disk.ship_disk)).
  apply (reach_set_dir Disk.host _ (Disk.start _ Disk.ship_disk)).
  apply (reach_init Disk.host (Some (PyInt 5)) None None None Disk.ship_disk).
  vm_compute. reflexivity.
Defined.

(** * Further properties *)

(** ** Patterns without special characters *)

Section GlobFacts.

Implicit Types (c : ascii) (s pat : str) (items : list fnmatch.item).

Lemma translate_plain_char c pat :
  glob_plain [c] = true ->
  fnmatch.translate_from 0 (c :: pat) = fnmatch.Lit c :: fnmatch.translate_from 0 pat.
Proof.
  unfold glob_plain. simpl. rewrite andb_true_r, negb_true_iff, !orb_false_iff.
  intros [[H1 H2] H3]. rewrite H1, H2, H3. reflexivity.
Qed.

Lemma translate_plain_app s pat :
  glob_plain s = true ->
  fnmatch.translate_from 0 (s ++ pat) = map fnmatch.Lit s ++ fnmatch.translate_from 0 pat.
Proof.
  induction s as [|c s IH]; intros Hp; [reflexivity|].
  unfold glob_plain in Hp. cbn [forallb] in Hp. apply andb_true_iff in Hp as [Hc Hs].
  rewrite <- app_comm_cons, translate_plain_char.
  - rewrite (IH Hs). reflexivity.
  - unfold glob_plain. cbn [forallb]. rewrite Hc. reflexivity.
Qed.

Lemma translate_plain s :
  glob_plain s = true -> fnmatch.translate_from 0 s = map fnmatch.Lit s.
Proof.
  intros Hp. rewrite <- (app_nil_r s) at 1.
  rewrite translate_plain_app by assumption. apply app_nil_r.
Qed.

(** Literal characters match themselves and nothing else. *)
Lemma matches_literals s items t :
  fnmatch.matches (map fnmatch.Lit s ++ items) t = true
  <-> exists t', t = s ++ t' /\ fnmatch.matches items t' = true.
Proof.
  revert t. induction s as [|c s IH]; intros t.
  - simpl. split; [intros Hm; exists t; split; [reflexivity|exact Hm]|].
    intros (t' & -> & Hm). exact Hm.
  - cbn [map app fnmatch.matches]. destruct t as [|a t].
    + split; [discriminate|]. intros (t' & Ht & _). discriminate Ht.
    + rewrite andb_true_iff, Ascii.eqb_eq, IH. split.
      * intros [-> (t' & -> & Hm)]. exists t'. split; [reflexivity|exact Hm].
      * intros (t' & [= -> ->] & Hm). split; [reflexivity|].
        exists t'. split; [reflexivity|exact Hm].
Qed.

Lemma matches_literals_only s t :
  fnmatch.matches (map fnmatch.Lit s) t = true <-> t = s.
Proof.
  rewrite <- (app_nil_r (map fnmatch.Lit s)), matches_literals. split.
  - intros (t' & -> & Hm). destruct t'; [apply app_nil_r|discriminate Hm].
  - intros ->. exists []. split; [symmetry; apply app_nil_r|reflexivity].
Qed.

Lemma matches_star_step items t :
  fnmatch.matches (fnmatch.Star :: items) t
  = fnmatch.matches items t
    || match t with
       | [] => false
       | _ :: t' => fnmatch.matches (fnmatch.Star :: items) t'
       end.
Proof. destruct t; reflexivity. Qed.

(** A star takes any text, the rest of the pattern what follows it. *)
Lemma matches_star items t :
  fnmatch.matches (fnmatch.Star :: items) t = true
  <-> exists k t', t = k ++ t' /\ fnmatch.matches items t' = true.
Proof.
  induction t as [|a t IH]; rewrite matches_star_step, orb_true_iff.
  - split.
    + intros [Hm|Hm]; [|discriminate]. exists [], []. split; [reflexivity|exact Hm].
    + intros (k & t' & Ht & Hm). symmetry in Ht. apply app_eq_nil in Ht as [-> ->].
      left. exact Hm.
  - rewrite IH. split.
    + intros [Hm|(k & t' & -> & Hm)].
      * exists [], (a :: t). split; [reflexivity|exact Hm].
      * exists (a :: k), t'. split; [reflexivity|exact Hm].
    + intros (k & t' & Ht & Hm). destruct k as [|b k].
      * simpl in Ht. subst t'. left. exact Hm.
      * injection Ht as -> ->. right. exists k, t'. split; [reflexivity|exact Hm].
Qed.

(** The items of the pattern [{descriptor}_v*.{ext}] behind a plain
    descriptor. *)
Lemma translate_version_pattern (descriptor ext : str) :
  glob_plain descriptor = true ->
  fnmatch.translate (descriptor ++ py "_v*." ++ ext)
  = map fnmatch.Lit descriptor
    ++ fnmatch.Lit "_"%char :: fnmatch.Lit "v"%char :: fnmatch.Star
       :: fnmatch.translate_from 0 ("."%char :: ext).
Proof.
  intros Hp. unfold fnmatch.translate. rewrite translate_plain_app by assumption.
  reflexivity.
Qed.

End GlobFacts.

(** ** Splitting on a longer separator *)

Section SeparatorFacts.

Implicit Types (c : ascii) (s sep x y : str).

Lemma startswith_app sep y : pystr.startswith sep (sep ++ y) = true.
Proof.
  induction sep as [|a sep IH]; [reflexivity|].
  simpl. rewrite Ascii.eqb_refl. exact IH.
Qed.

(** Passing over the rest of a separator that has been found. *)
Lemma split_from_skip sep x y :
  pystr.split_from sep (length x) (x ++ y) = pystr.split_from sep 0 y.
Proof.
  induction x as [|a x IH]; [reflexivity|]. simpl. exact IH.
Qed.

(** The first piece ends where the separator first begins. *)
Lemma split_sep_app c sep x y :
  c ∉ x ->
  pystr.split (c :: sep) (x ++ c :: sep ++ y) = x :: pystr.split (c :: sep) y.
Proof.
  unfold pystr.split. induction x as [|a x IH]; intros Hn.
  - cbn [app pystr.split_from].
    change (c :: sep ++ y) with ((c :: sep) ++ y) at 1.
    rewrite startswith_app. f_equal.
    replace (length (c :: sep) - 1)%nat with (length sep) by (simpl; lia).
    apply split_from_skip.
  - apply not_elem_of_cons in Hn as [Hne Hn].
    cbn [app pystr.split_from pystr.startswith].
    apply Ascii.eqb_neq in Hne. rewrite Hne. cbn [andb].
    rewrite (IH Hn). reflexivity.
Qed.

(** Text that holds no first character of the separator, followed by a
    dot, stays at the head of the first piece. *)
Lemma split_sep_head c sep x y :
  c ∉ x -> c <> "."%char ->
  exists t rest,
    pystr.split (c :: sep) (x ++ "."%char :: y) = (x ++ "."%char :: t) :: rest.
Proof.
  unfold pystr.split. intros Hn Hdot. induction x as [|a x IH].
  - cbn [app pystr.split_from pystr.startswith].
    apply Ascii.eqb_neq in Hdot. rewrite Hdot. cbn [andb].
    pose proof (split_nonempty (c :: sep) 0 y) as Hne.
    destruct (pystr.split_from (c :: sep) 0 y) as [|piece rest]; [contradiction|].
    exists piece, rest. reflexivity.
  - apply not_elem_of_cons in Hn as [Hne Hn].
    destruct (IH Hn) as (t & rest & E).
    cbn [app pystr.split_from pystr.startswith].
    apply Ascii.eqb_neq in Hne. rewrite Hne. cbn [andb]. rewrite E.
    exists t, rest. reflexivity.
Qed.

(** The rendering of a version holds digits and at most a sign. *)
Lemma format_03d_excludes c (z : Z) :
  pystr.is_ascii_digit c = false -> c <> "-"%char -> c ∉ pystr.format_03d z.
Proof.
  intros Hd Hs Hin. pose proof (format_03d_chars z) as Hc.
  rewrite Forall_forall in Hc. destruct (Hc c Hin) as [H1|H1]; congruence.
Qed.

Lemma format_03d_head (z : Z) :
  exists c r, pystr.format_03d z = c :: r /\ c <> "v"%char.
Proof.
  pose proof (format_03d_length z) as Hl.
  destruct (pystr.format_03d z) as [|c r] eqn:E; [simpl in Hl; lia|].
  exists c, r. split; [reflexivity|]. intros ->.
  apply (format_03d_excludes "v"%char z); [reflexivity|discriminate|].
  rewrite E. left.
Qed.

End SeparatorFacts.

(** ** Reading a version from a name *)

Section VersionFacts.

Implicit Types (o : SceneFile) (l : list str) (file : str).

(** [scene_version] on a name of the grammar. *)
Lemma scene_version_of_name (descriptor ext : str) (z : Z) file :
  "_"%char ∉ descriptor ->
  posixpath.basename file = versioned_name descriptor z ext ->
  scene_version file = Ok z.
Proof.
  intros Hd Hname. unfold scene_version. rewrite Hname.
  unfold versioned_name. change (py "_v") with ("_"%char :: ["v"%char]).
  change (py ".") with ["."%char].
  rewrite <- app_comm_cons.
  change (["v"%char] ++ pystr.format_03d z ++ ["."%char] ++ ext)
    with (["v"%char] ++ (pystr.format_03d z ++ "."%char :: ext)).
  rewrite (split_sep_app "_"%char ["v"%char] descriptor) by assumption.
  destruct (split_sep_head "_"%char ["v"%char] (pystr.format_03d z) ext)
    as (t & rest & E).
  { apply format_03d_excludes; [reflexivity|discriminate]. }
  { discriminate. }
  rewrite E. rewrite split_char_app.
  - apply int_format_03d.
  - apply format_03d_excludes; [reflexivity|discriminate].
Qed.

Lemma comprehension_Ok_inv {A B} (f : A -> result B) (l : list A) (bs : list B) :
  comprehension f l = Ok bs -> forall a, a ∈ l -> exists b, f a = Ok b.
Proof.
  revert bs. induction l as [|a l IH]; intros bs Hc x Hx; [inversion Hx|].
  simpl in Hc. destruct (f a) as [b|e] eqn:Ea; [|discriminate].
  destruct (comprehension f l) as [bs'|e] eqn:El; [|discriminate].
  apply elem_of_cons in Hx as [->|Hx]; [exists b; exact Ea|].
  apply (IH bs' eq_refl), Hx.
Qed.

Lemma filter_matched o l file :
  file ∈ List.filter
           (fun f => fnmatch.fnmatch (posixpath.basename f)
                       (descriptor o ++ py "_v*." ++ ext o)) l
  <-> file ∈ l
      /\ fnmatch.fnmatch (posixpath.basename file)
           (descriptor o ++ py "_v*." ++ ext o) = true.
Proof. rewrite !list_elem_of_In, filter_In. reflexivity. Qed.

(** When [next_version_in] returns, and what. *)
Lemma next_version_in_Ok o l (r : Z) :
  next_version_in o l = Ok r
  <-> exists m,
      r = m + 1
      /\ (exists file, file ∈ l
            /\ fnmatch.fnmatch (posixpath.basename file)
                 (descriptor o ++ py "_v*." ++ ext o) = true
            /\ scene_version file = Ok m)
      /\ (forall file, file ∈ l ->
            fnmatch.fnmatch (posixpath.basename file)
              (descriptor o ++ py "_v*." ++ ext o) = true ->
            exists v, scene_version file = Ok v /\ v <= m).
Proof.
  unfold next_version_in.
  set (matched := List.filter _ l).
  assert (forall f, f ∈ matched <-> f ∈ l
            /\ fnmatch.fnmatch (posixpath.basename f)
                 (descriptor o ++ py "_v*." ++ ext o) = true) as Hmatched
    by (intros f; apply filter_matched).
  split.
  - intros Hr.
    destruct (comprehension scene_version matched) as [vs|e] eqn:Ec; [|discriminate].
    pose proof (comprehension_Ok_inv _ _ _ Ec) as Hall.
    destruct (comprehension_Ok scene_version matched Hall) as (vs' & Ec' & _ & Hvs).
    rewrite Ec in Ec'. injection Ec' as <-.
    set (sorted := merge_sort Z.le (elements (list_to_set vs : gset Z))) in *.
    destruct (last sorted) as [m|] eqn:El; [|discriminate].
    injection Hr as <-. exists m. split; [reflexivity|].
    assert (m ∈ vs) as Hm by (apply sorted_set_members, last_Some_elem_of, El).
    split.
    + apply Hvs in Hm as (f & Hf & Hfm). apply Hmatched in Hf as [Hf Hfn].
      exists f. repeat split; assumption.
    + intros f Hf Hfn.
      destruct (Hall f) as [v Hv]; [apply Hmatched; split; assumption|].
      exists v. split; [exact Hv|].
      apply (last_of_sorted sorted); [apply Sorted_merge_sort; apply _|exact El|].
      apply sorted_set_members, Hvs. exists f. split; [|exact Hv].
      apply Hmatched. split; assumption.
  - intros (m & -> & (f0 & Hf0 & Hfn0 & Hv0) & Hall).
    destruct (comprehension_Ok scene_version matched) as (vs & -> & _ & Hvs).
    { intros f Hf. apply Hmatched in Hf as [Hf Hfn].
      destruct (Hall f Hf Hfn) as (v & Hv & _). exists v. exact Hv. }
    set (sorted := merge_sort Z.le (elements (list_to_set vs : gset Z))).
    assert (m ∈ sorted) as Hm.
    { apply sorted_set_members, Hvs. exists f0. split; [|exact Hv0].
      apply Hmatched. split; assumption. }
    destruct (last sorted) as [m'|] eqn:El.
    + f_equal. f_equal.
      assert (m <= m') as H1.
      { apply (last_of_sorted sorted); [apply Sorted_merge_sort; apply _|exact El|exact Hm]. }
      assert (m' <= m) as H2.
      { assert (m' ∈ vs) as Hm' by (apply sorted_set_members, last_Some_elem_of, El).
        apply Hvs in Hm' as (f & Hf & Hfv). apply Hmatched in Hf as [Hf Hfn].
        destruct (Hall f Hf Hfn) as (v & Hv & Hle). congruence. }
      lia.
    + apply last_None in El. rewrite El in Hm. inversion Hm.
Qed.

(** Without a matching name the list of versions is empty. *)
Lemma next_version_in_no_match o l :
  Forall (fun file =>
            fnmatch.fnmatch (posixpath.basename file)
              (descriptor o ++ py "_v*." ++ ext o) = false) l ->
  next_version_in o l = Raise IndexError.
Proof.
  intros Hno. unfold next_version_in.
  assert (List.filter
            (fun file => fnmatch.fnmatch (posixpath.basename file)
                           (descriptor o ++ py "_v*." ++ ext o)) l = []) as ->;
    [|reflexivity].
  induction Hno as [|f l Hf Hno IH]; [reflexivity|].
  cbn [List.filter]. rewrite Hf. exact IH.
Qed.

End VersionFacts.

(** ** Names of the grammar *)

Section GrammarNames.

Context (H : Host).

(** X1: the parser reads a name of the grammar back.  For a directory
    without trailing separator, a descriptor without underscore or
    separator, an integer version of at most 4300 digits and an extension
    without dot, underscore or separator, parsing
    [dir/descriptor_vNNN.ext] sets the four attributes to exactly these
    parts, whatever they held before. *)
Theorem parse_versioned_name (d desc e : str) (z : Z) (st : state H) :
  Z.abs z < 10 ^ 4300 ->
  (last d = Some posixpath.sep -> Forall (eq posixpath.sep) d) ->
  "_"%char ∉ desc ->
  posixpath.sep ∉ desc ->
  "."%char ∉ e ->
  "_"%char ∉ e ->
  posixpath.sep ∉ e ->
  _init_properties_from_path H
    (PyPath (posixpath.join d (versioned_name desc z e))) st
  = (Ok tt,
     Build_state H {| _dir := PyPath d; descriptor := desc; version := z; ext := e |}
       (hw st) (calls st)).
Proof.
  intros _ Hd Hdu Hds Hed Heu Hes.
  set (fmt := pystr.format_03d z).
  assert (forall c, pystr.is_ascii_digit c = false -> c <> "-"%char -> c ∉ fmt) as Hfmt
    by (intros c; apply format_03d_excludes).
  assert (versioned_name desc z e
          = desc ++ "_"%char :: ("v"%char :: fmt) ++ "."%char :: e) as Hname
    by reflexivity.
  assert (posixpath.sep ∉ versioned_name desc z e) as Hsep.
  { rewrite Hname. rewrite not_elem_of_app, not_elem_of_cons, not_elem_of_app,
      !not_elem_of_cons.
    repeat split; try assumption; try discriminate.
    apply Hfmt; [reflexivity|discriminate]. }
  rewrite init_properties_run. cbv zeta.
  rewrite basename_join, dirname_join by assumption.
  assert (snd (posixpath.splitext (posixpath.join d (versioned_name desc z e)))
          = "."%char :: e) as ->.
  { rewrite Hname.
    replace (desc ++ "_"%char :: ("v"%char :: fmt) ++ "."%char :: e)
      with ((desc ++ "_"%char :: "v"%char :: fmt) ++ "."%char :: e)
      by (rewrite <- app_assoc; reflexivity).
    apply splitext_join.
    - rewrite <- app_assoc. exact Hsep.
    - assumption.
    - exists "_"%char. split; [|discriminate].
      apply elem_of_app. right. left. }
  rewrite Hname.
  change (py "_") with ["_"%char]. change (py ".") with ["."%char].
  rewrite split_char_app by assumption.
  rewrite split_char_absent.
  2:{ rewrite not_elem_of_app, !not_elem_of_cons.
      repeat split; try assumption; try discriminate.
      apply Hfmt; [reflexivity|discriminate]. }
  rewrite split_char_app.
  2:{ rewrite not_elem_of_cons. split; [discriminate|].
      apply Hfmt; [reflexivity|discriminate]. }
  change (drop 1 ("v"%char :: fmt)) with fmt.
  unfold fmt. rewrite int_format_03d. reflexivity.
Qed.

(** X9: the version scan reads the version of a file named by the grammar,
    in any directory: for a descriptor without underscore or separator and
    an extension without separator, the version extracted from
    [dir/descriptor_vNNN.ext] is the version it was written with. *)
Theorem scene_version_reads_versioned_name (d desc e : str) (z : Z) :
  "_"%char ∉ desc ->
  posixpath.sep ∉ desc ->
  posixpath.sep ∉ e ->
  scene_version (posixpath.join d (versioned_name desc z e)) = Ok z.
Proof.
  intros Hdu Hds Hes. apply (scene_version_of_name desc e z); [assumption|].
  apply basename_join. unfold versioned_name.
  change (py "_v") with ["_"%char; "v"%char]. change (py ".") with ["."%char].
  rewrite !not_elem_of_app, !not_elem_of_cons.
  repeat split; try assumption; try discriminate; try apply not_elem_of_nil.
  apply format_03d_excludes; [reflexivity|discriminate].
Qed.

End GrammarNames.

Lemma parse_versioned_name_witness :
  _init_properties_from_path Disk.host
    (PyPath (posixpath.join (py "assets/props") (versioned_name (py "tank") 1204 (py "mb"))))
    (Disk.start (Disk.ship 7) Disk.ship_disk)
  = (Ok tt,
     Build_state Disk.host
       {| _dir := PyPath (py "assets/props"); descriptor := py "tank";
          version := 1204; ext := py "mb" |}
       Disk.ship_disk []).
Proof.
  apply (parse_versioned_name Disk.host (py "assets/props") (py "tank") (py "mb") 1204
           (Disk.start (Disk.ship 7) Disk.ship_disk)).
  - vm_compute. reflexivity.
  - intros Hl. vm_compute in Hl. discriminate Hl.
  - compute_done.
  - compute_done.
  - compute_done.
  - compute_done.
  - compute_done.
Defined.

Lemma scene_version_reads_versioned_name_witness :
  scene_version (posixpath.join (py "assets/props/") (versioned_name (py "tank") 1204 (py "tar.gz")))
  = Ok 1204.
Proof.
  apply (scene_version_reads_versioned_name (py "assets/props/") (py "tank")
           (py "tar.gz") 1204); compute_done.
Defined.

(** ** The constructor with a scene open *)

Section OpenScene.

Context (H : Host).

(** X2: while the host has a scene open, the constructor takes nothing
    from its arguments: two calls whose directory arguments [Path]
    accepts give the same outcome, object or exception, whatever else
    they pass. *)
Theorem init_ignores_arguments_when_scene_open
    (dir1 dir2 : option pyval) (d1 d2 : pyval)
    (descriptor1 descriptor2 : option str) (version1 version2 : option Z)
    (ext1 ext2 : option str) (w : world H) :
  sceneName H w <> [] ->
  Path H (default default_dir dir1) = Ok d1 ->
  Path H (default default_dir dir2) = Ok d2 ->
  __init__ H dir1 descriptor1 version1 ext1 w
  = __init__ H dir2 descriptor2 version2 ext2 w.
Proof.
  intros Hs H1 H2. unfold __init__. rewrite H1, H2.
  destruct (sceneName H w) as [|c scene]; [contradiction|].
  rewrite !init_properties_run. cbv zeta.
  destruct (pystr.split (py "_") (posixpath.basename (c :: scene)))
    as [|d [|v [|x l]]]; try reflexivity.
  destruct (pystr.split (py ".") v) as [|first l]; [reflexivity|].
  destruct (pystr.int (drop 1 first)); reflexivity.
Qed.

(** X3: the constructor fails when the open scene is not named by the
    convention: if the name of the scene file does not hold exactly one
    underscore, a [ValueError] leaves the constructor and no object is
    built. *)
Theorem init_raises_on_unversioned_scene
    (dir : option pyval) (d : pyval) (descriptor : option str)
    (version : option Z) (ext : option str) (w : world H) :
  sceneName H w <> [] ->
  count_occ ascii_dec (posixpath.basename (sceneName H w)) "_"%char <> 1%nat ->
  Path H (default default_dir dir) = Ok d ->
  __init__ H dir descriptor version ext w = Raise ValueError.
Proof.
  intros Hs Hc Hp. unfold __init__. rewrite Hp.
  destruct (sceneName H w) as [|c scene]; [contradiction|].
  rewrite init_properties_run. cbv zeta. change (py "_") with ["_"%char].
  pose proof (split_char_length "_"%char (posixpath.basename (c :: scene))) as Hl.
  destruct (pystr.split ["_"%char] (posixpath.basename (c :: scene)))
    as [|x [|v [|y l]]]; try reflexivity.
  simpl in Hl. exfalso. apply Hc. lia.
Qed.

(** X4: a failed parse is not undone.  Whenever
    [_init_properties_from_path] raises on a [Path], the directory and the
    extension of the object have already been replaced by those of the
    path, while the version is the one from before. *)
Theorem parse_failure_keeps_partial_update (p : str) (st : state H) (e : exn) :
  fst (_init_properties_from_path H (PyPath p) st) = Raise e ->
  let o := self (snd (_init_properties_from_path H (PyPath p) st)) in
  _dir o = PyPath (posixpath.dirname p)
  /\ ext o = drop 1 (snd (posixpath.splitext p))
  /\ version o = version (self st).
Proof.
  rewrite init_properties_run. cbv zeta.
  destruct (pystr.split (py "_") (posixpath.basename p)) as [|d [|v [|x l]]];
    try (intros _; repeat split; reflexivity).
  destruct (pystr.split (py ".") v) as [|first l];
    [intros _; repeat split; reflexivity|].
  destruct (pystr.int (drop 1 first)); [discriminate|].
  intros _. repeat split; reflexivity.
Qed.

(** X5: the composed path has [basename()] as its last component and the
    directory as its head: for a directory without trailing separator and
    a descriptor and an extension without separator, [path()] is a path
    whose [name] is [basename()] and whose [dirname()] is [dir]. *)
Theorem path_components (o : SceneFile) (d : str) :
  _dir o = PyPath d ->
  (last d = Some posixpath.sep -> Forall (eq posixpath.sep) d) ->
  posixpath.sep ∉ descriptor o ->
  posixpath.sep ∉ ext o ->
  exists p : str,
    path H o = Ok p
    /\ posixpath.basename p = basename o
    /\ posixpath.dirname p = d.
Proof.
  intros Hdir Hd Hds Hes.
  assert (posixpath.sep ∉ basename o) as Hsep.
  { unfold basename. change (py "_") with ["_"%char]. change (py ".") with ["."%char].
    rewrite !not_elem_of_app, !not_elem_of_cons.
    repeat split; try assumption; try discriminate; try apply not_elem_of_nil.
    apply format_03d_excludes; [reflexivity|discriminate]. }
  exists (posixpath.join d (basename o)). split; [|split].
  - unfold path, dir. rewrite Hdir. reflexivity.
  - apply basename_join, Hsep.
  - apply dirname_join; assumption.
Qed.

End OpenScene.

Lemma init_ignores_arguments_when_scene_open_witness :
  __init__ Disk.host (Some (PyStr (py "elsewhere"))) (Some (py "car")) (Some 40)
    (Some (py "mb"))
    {| Disk.open_scene := py "proj/scenes/ship_v003.ma"; Disk.folders := [];
       Disk.stored := []; Disk.locked := false |}
  = __init__ Disk.host None None None None
      {| Disk.open_scene := py "proj/scenes/ship_v003.ma"; Disk.folders := [];
         Disk.stored := []; Disk.locked := false |}.
Proof.
  apply (init_ignores_arguments_when_scene_open Disk.host
           (Some (PyStr (py "elsewhere"))) None
           (PyPath (py "elsewhere")) (PyPath (py ""))).
  - discriminate.
  - reflexivity.
  - reflexivity.
Defined.

Lemma init_raises_on_unversioned_scene_witness :
  __init__ Disk.host None None None None
    {| Disk.open_scene := py "proj/scenes/untitled.ma"; Disk.folders := [];
       Disk.stored := []; Disk.locked := false |}
  = Raise ValueError.
Proof.
  apply (init_raises_on_unversioned_scene Disk.host None (PyPath (py ""))).
  - discriminate.
  - vm_compute. lia.
  - reflexivity.
Defined.

Lemma parse_failure_keeps_partial_update_witness :
  let r := _init_properties_from_path Disk.host (PyPath (py "shots/sq010/layout_vB.mb"))
             (Disk.start (Disk.ship 7) Disk.ship_disk) in
  _dir (self (snd r)) = PyPath (py "shots/sq010")
  /\ ext (self (snd r)) = py "mb"
  /\ version (self (snd r)) = 7.
Proof.
  apply (parse_failure_keeps_partial_update Disk.host (py "shots/sq010/layout_vB.mb")
           (Disk.start (Disk.ship 7) Disk.ship_disk) ValueError).
  vm_compute. reflexivity.
Defined.

Lemma path_components_witness :
  exists p : str,
    path Disk.host (Disk.ship 12) = Ok p
    /\ posixpath.basename p = basename (Disk.ship 12)
    /\ posixpath.dirname p = py "proj/scenes".
Proof.
  apply (path_components Disk.host (Disk.ship 12) (py "proj/scenes")).
  - reflexivity.
  - intros Hl. vm_compute in Hl. discriminate Hl.
  - compute_done.
  - compute_done.
Defined.

(** ** Names written and names looked for *)

Section WrittenNames.

(** X6: two versions of one asset never share a file name: with the same
    descriptor and extension, different versions give different
    [basename()]s, for all integers. *)
Theorem basename_distinguishes_versions (o1 o2 : SceneFile) :
  descriptor o1 = descriptor o2 ->
  ext o1 = ext o2 ->
  version o1 <> version o2 ->
  basename o1 <> basename o2.
Proof.
  intros Hd He Hv Hb. apply Hv. unfold basename in Hb. rewrite Hd, He in Hb.
  apply app_inv_head in Hb. change (py "_") with ["_"%char] in Hb.
  injection Hb as Hb. apply app_inv_tail in Hb.
  pose proof (int_format_03d (version o1)) as H1.
  rewrite Hb, int_format_03d in H1. congruence.
Qed.

(** X7: [basename()] never matches the pattern [next_avail_version] looks
    for.  For a descriptor without pattern characters, the name written
    for any version and extension fails [{descriptor}_v*.{ext}]: after the
    underscore it has a digit or a sign where the pattern has the ['v']. *)
Theorem basename_never_matches_version_glob (o : SceneFile) :
  glob_plain (descriptor o) = true ->
  fnmatch.fnmatch (basename o) (descriptor o ++ py "_v*." ++ ext o) = false.
Proof.
  intros Hp. apply not_true_is_false. unfold fnmatch.fnmatch.
  rewrite translate_version_pattern by assumption.
  rewrite matches_literals. intros (t & Ht & Hm).
  unfold basename in Ht. apply app_inv_head in Ht. subst t.
  destruct (format_03d_head (version o)) as (c & r & E & Hc).
  rewrite E in Hm. change (py "_") with ["_"%char] in Hm.
  cbn [app fnmatch.matches] in Hm.
  apply Ascii.eqb_neq in Hc. rewrite Hc in Hm. discriminate Hm.
Qed.

(** X8: what the pattern of the version scan selects.  For a descriptor
    and an extension without pattern characters, a name matches
    [{descriptor}_v*.{ext}] exactly when it is the descriptor, then ["_v"],
    then any text, then a dot and the extension. *)
Theorem version_glob_selects (desc e name : str) :
  glob_plain desc = true ->
  glob_plain e = true ->
  fnmatch.fnmatch name (desc ++ py "_v*." ++ e) = true
  <-> exists mid : str, name = desc ++ py "_v" ++ mid ++ py "." ++ e.
Proof.
  intros Hd He. unfold fnmatch.fnmatch.
  rewrite translate_version_pattern by assumption.
  rewrite translate_plain_char by reflexivity.
  rewrite (translate_plain e He).
  change (fnmatch.Lit "."%char :: map fnmatch.Lit e)
    with (map fnmatch.Lit ("."%char :: e)).
  rewrite matches_literals. split.
  - intros (t & -> & Hm). destruct t as [|a [|b t]]; cbn [fnmatch.matches] in Hm.
    { discriminate Hm. }
    { rewrite andb_false_r in Hm. discriminate Hm. }
    apply andb_true_iff in Hm as [Ha Hm]. apply Ascii.eqb_eq in Ha as ->.
    apply andb_true_iff in Hm as [Hb Hm]. apply Ascii.eqb_eq in Hb as ->.
    change (fnmatch.matches (fnmatch.Star :: map fnmatch.Lit ("."%char :: e)) t = true)
      in Hm.
    apply matches_star in Hm as (k & t' & -> & Hm).
    apply matches_literals_only in Hm as ->. exists k. reflexivity.
  - intros [mid ->]. exists (py "_v" ++ mid ++ py "." ++ e). split; [reflexivity|].
    change (py "_v" ++ mid ++ py "." ++ e)
      with ("_"%char :: "v"%char :: mid ++ "."%char :: e).
    cbn [fnmatch.matches]. rewrite !Ascii.eqb_refl. cbn [andb].
    change (fnmatch.matches (fnmatch.Star :: map fnmatch.Lit ("."%char :: e))
              (mid ++ "."%char :: e) = true).
    apply matches_star. exists mid, ("."%char :: e). split; [reflexivity|].
    apply matches_literals_only. reflexivity.
Qed.

End WrittenNames.

Lemma basename_distinguishes_versions_witness :
  basename (Disk.ship 7) <> basename (Disk.ship 1007).
Proof.
  apply (basename_distinguishes_versions (Disk.ship 7) (Disk.ship 1007)).
  - reflexivity.
  - reflexivity.
  - simpl. lia.
Defined.

Lemma basename_never_matches_version_glob_witness :
  fnmatch.fnmatch (basename (Disk.ship 4)) (py "ship_v*.ma") = false.
Proof.
  apply (basename_never_matches_version_glob (Disk.ship 4)). reflexivity.
Defined.

Lemma version_glob_selects_witness :
  fnmatch.fnmatch (py "ship_v003.backup.ma") (py "ship" ++ py "_v*." ++ py "ma") = true
  <-> exists mid : str,
      py "ship_v003.backup.ma" = py "ship" ++ py "_v" ++ mid ++ py "." ++ py "ma".
Proof.
  apply (version_glob_selects (py "ship") (py "ma") (py "ship_v003.backup.ma"));
    reflexivity.
Defined.

(** ** The version scan on a listing *)

Section Scan.

Implicit Types (o : SceneFile) (l : list str).

Lemma version_glob_accepts (desc e : str) (z : Z) :
  glob_plain desc = true ->
  glob_plain e = true ->
  fnmatch.fnmatch (versioned_name desc z e) (desc ++ py "_v*." ++ e) = true.
Proof.
  intros Hd He. unfold fnmatch.fnmatch.
  rewrite translate_version_pattern by assumption.
  rewrite translate_plain_char by reflexivity.
  rewrite (translate_plain e He).
  change (fnmatch.Lit "."%char :: map fnmatch.Lit e)
    with (map fnmatch.Lit ("."%char :: e)).
  apply matches_literals. exists (py "_v" ++ pystr.format_03d z ++ py "." ++ e).
  split; [reflexivity|].
  change (py "_v" ++ pystr.format_03d z ++ py "." ++ e)
    with ("_"%char :: "v"%char :: pystr.format_03d z ++ "."%char :: e).
  cbn [fnmatch.matches]. rewrite !Ascii.eqb_refl. cbn [andb].
  change (fnmatch.matches (fnmatch.Star :: map fnmatch.Lit ("."%char :: e))
            (pystr.format_03d z ++ "."%char :: e) = true).
  apply matches_star. exists (pystr.format_03d z), ("."%char :: e).
  split; [reflexivity|]. apply matches_literals_only. reflexivity.
Qed.

Lemma written_name_fails_glob (desc e : str) (z : Z) :
  glob_plain desc = true ->
  fnmatch.fnmatch (desc ++ py "_" ++ pystr.format_03d z ++ py "." ++ e)
    (desc ++ py "_v*." ++ e) = false.
Proof.
  intros Hp. apply not_true_is_false. unfold fnmatch.fnmatch.
  rewrite translate_version_pattern by assumption.
  rewrite matches_literals. intros (t & Ht & Hm).
  apply app_inv_head in Ht. subst t.
  destruct (format_03d_head z) as (c & r & E & Hc).
  rewrite E in Hm. change (py "_") with ["_"%char] in Hm.
  cbn [app fnmatch.matches] in Hm.
  apply Ascii.eqb_neq in Hc. rewrite Hc in Hm. discriminate Hm.
Qed.

Lemma next_version_in_returns o l :
  (exists file, file ∈ l
     /\ fnmatch.fnmatch (posixpath.basename file)
          (descriptor o ++ py "_v*." ++ ext o) = true) ->
  (forall file, file ∈ l ->
     fnmatch.fnmatch (posixpath.basename file)
       (descriptor o ++ py "_v*." ++ ext o) = true ->
     exists v, scene_version file = Ok v) ->
  exists r, next_version_in o l = Ok r.
Proof.
  intros (f0 & Hf0 & Hm0) Hall. unfold next_version_in.
  destruct (comprehension_Ok scene_version
              (List.filter
                 (fun f => fnmatch.fnmatch (posixpath.basename f)
                             (descriptor o ++ py "_v*." ++ ext o)) l))
    as (vs & -> & _ & Hvs).
  { intros f Hf. apply filter_matched in Hf as [Hf Hm]. apply Hall; assumption. }
  destruct (Hall f0 Hf0 Hm0) as [v0 Hv0].
  assert (v0 ∈ merge_sort Z.le (elements (list_to_set vs : gset Z))) as Hin.
  { apply sorted_set_members, Hvs. exists f0. split; [|exact Hv0].
    apply filter_matched. split; assumption. }
  destruct (last (merge_sort Z.le (elements (list_to_set vs : gset Z)))) as [m|] eqn:El.
  - exists (m + 1). reflexivity.
  - apply last_None in El. rewrite El in Hin. inversion Hin.
Qed.

(** X10: in a folder kept by the convention the scan finds the next
    version.  For a descriptor and an extension without pattern
    characters and a descriptor without underscore: when every name the
    pattern selects is of the grammar [descriptor_vNNN.ext] and there is
    such a name, the result is one more than the greatest version among
    the names of the grammar. *)
Theorem next_version_of_versioned_listing o l :
  glob_plain (descriptor o) = true ->
  glob_plain (ext o) = true ->
  "_"%char ∉ descriptor o ->
  (exists file z, file ∈ l
     /\ posixpath.basename file = versioned_name (descriptor o) z (ext o)) ->
  (forall file, file ∈ l ->
     fnmatch.fnmatch (posixpath.basename file)
       (descriptor o ++ py "_v*." ++ ext o) = true ->
     exists z, posixpath.basename file = versioned_name (descriptor o) z (ext o)) ->
  exists m : Z,
    (exists file, file ∈ l
       /\ posixpath.basename file = versioned_name (descriptor o) m (ext o))
    /\ (forall file z, file ∈ l ->
          posixpath.basename file = versioned_name (descriptor o) z (ext o) ->
          z <= m)
    /\ next_version_in o l = Ok (m + 1).
Proof.
  intros Hp Hpe Hu (f0 & z0 & Hf0 & Hn0) Hall.
  assert (forall file z,
            posixpath.basename file = versioned_name (descriptor o) z (ext o) ->
            fnmatch.fnmatch (posixpath.basename file)
              (descriptor o ++ py "_v*." ++ ext o) = true
            /\ scene_version file = Ok z) as Hgood.
  { intros file z Hn. split.
    - rewrite Hn. apply version_glob_accepts; assumption.
    - apply (scene_version_of_name (descriptor o) (ext o)); assumption. }
  destruct (next_version_in_returns o l) as [r Hr].
  { exists f0. split; [exact Hf0|]. apply (Hgood f0 z0 Hn0). }
  { intros file Hf Hm. destruct (Hall file Hf Hm) as [z Hn].
    exists z. apply (Hgood file z Hn). }
  pose proof Hr as Hr'.
  apply next_version_in_Ok in Hr' as (m & -> & (f & Hf & Hm & Hv) & Hmax).
  exists m. split; [|split; [|exact Hr]].
  - exists f. split; [exact Hf|].
    destruct (Hall f Hf Hm) as [z Hn].
    destruct (Hgood f z Hn) as [_ Hz]. congruence.
  - intros file z Hfile Hn. destruct (Hgood file z Hn) as [Hm' Hz].
    destruct (Hmax file Hfile Hm') as (v & Hv' & Hle). congruence.
Qed.

(** X11: the order of the listing does not matter: when the scan returns a
    version for a listing, it returns the same version for every
    rearrangement of it. *)
Theorem next_version_ignores_listing_order o l l' (r : Z) :
  l ≡ₚ l' ->
  next_version_in o l = Ok r ->
  next_version_in o l' = Ok r.
Proof.
  intros Hperm Hr.
  assert (forall f, f ∈ l <-> f ∈ l') as Hsame.
  { intros f. rewrite !list_elem_of_In. split; apply Permutation_in;
      [exact Hperm|symmetry; exact Hperm]. }
  apply next_version_in_Ok in Hr as (m & -> & (f & Hf & Hm & Hv) & Hmax).
  apply next_version_in_Ok. exists m. split; [reflexivity|]. split.
  - exists f. split; [apply Hsame, Hf|]. split; assumption.
  - intros file Hfile. apply Hmax, Hsame, Hfile.
Qed.

End Scan.

Lemma next_version_of_versioned_listing_witness :
  exists m : Z,
    (exists file, file ∈ Disk.stored Disk.ship_disk
       /\ posixpath.basename file = versioned_name (py "ship") m (py "ma"))
    /\ (forall file z, file ∈ Disk.stored Disk.ship_disk ->
          posixpath.basename file = versioned_name (py "ship") z (py "ma") ->
          z <= m)
    /\ next_version_in (Disk.ship 1) (Disk.stored Disk.ship_disk) = Ok (m + 1).
Proof.
  apply (next_version_of_versioned_listing (Disk.ship 1) (Disk.stored Disk.ship_disk)).
  - reflexivity.
  - reflexivity.
  - compute_done.
  - exists (py "proj/scenes/ship_v001.ma"), 1. split; [left|vm_compute; reflexivity].
  - intros file Hin Hm. simpl in Hin.
    repeat (apply elem_of_cons in Hin as [->|Hin]).
    + exists 1. vm_compute. reflexivity.
    + exists 3. vm_compute. reflexivity.
    + exists 3. vm_compute. reflexivity.
    + vm_compute in Hm. discriminate Hm.
    + inversion Hin.
Defined.

Lemma next_version_ignores_listing_order_witness :
  next_version_in (Disk.ship 1)
    [py "proj/scenes/ship_v003.ma"; py "proj/scenes/car_v009.ma";
     py "proj/scenes/ship_v001.ma"; py "proj/scenes/ship_v003.ma"]
  = Ok 4.
Proof.
  apply (next_version_ignores_listing_order (Disk.ship 1) (Disk.stored Disk.ship_disk)).
  - simpl.
    apply (Permutation_trans
             (l' := [py "proj/scenes/ship_v003.ma"; py "proj/scenes/ship_v001.ma";
                     py "proj/scenes/ship_v003.ma"; py "proj/scenes/car_v009.ma"])).
    + apply perm_swap.
    + apply perm_skip.
      apply (Permutation_trans
               (l' := [py "proj/scenes/ship_v001.ma"; py "proj/scenes/car_v009.ma";
                       py "proj/scenes/ship_v003.ma"])).
      * apply perm_skip, perm_swap.
      * apply perm_swap.
  - vm_compute. reflexivity.
Defined.

(** ** What the methods ask of the host *)

Section HostCalls.

Context (H : Host).

(** X12: [next_avail_version] lists the directory twice and works on the
    second listing only; the first is thrown away.  An exception of either
    listing leaves the method, nothing but listings is asked of the host,
    and the object is not changed. *)
Theorem next_avail_version_uses_second_listing (st : state H) (d : str) :
  _dir (self st) = PyPath d ->
  let '(r1, w1) := files H d (hw st) in
  match r1 with
  | Raise e =>
      next_avail_version H st
      = (Raise e, Build_state H (self st) w1 (calls st ++ [CallFiles d]))
  | Ok _ =>
      let '(r2, w2) := files H d w1 in
      next_avail_version H st
      = (match r2 with
         | Ok l => next_version_in (self st) l
         | Raise e => Raise e
         end,
         Build_state H (self st) w2 (calls st ++ [CallFiles d; CallFiles d]))
  end.
Proof.
  intros Hd.
  unfold next_avail_version, dir_files, bind, get_self, lift, host_call, dir.
  cbv beta iota zeta. rewrite Hd. cbn [as_Path].
  destruct (files H d (hw st)) as [[l0|e] w1]; cbn [self hw calls]; [|reflexivity].
  rewrite Hd. cbn [as_Path].
  destruct (files H d w1) as [[l|e] w2]; cbn [self hw calls];
    rewrite <- app_assoc; reflexivity.
Qed.

(** X13: without a matching file [increment_and_save] saves nothing: when
    the directory can be listed and no name in it matches
    [{descriptor}_v*.{ext}], an [IndexError] leaves the method after the
    two listings, the host is not asked to save and the object keeps its
    version. *)
Theorem increment_and_save_without_match (st : state H) (d : str)
    (l0 l : list str) (w1 w2 : world H) :
  _dir (self st) = PyPath d ->
  files H d (hw st) = (Ok l0, w1) ->
  files H d w1 = (Ok l, w2) ->
  Forall (fun file =>
            fnmatch.fnmatch (posixpath.basename file)
              (descriptor (self st) ++ py "_v*." ++ ext (self st)) = false) l ->
  increment_and_save H st
  = (Raise IndexError,
     Build_state H (self st) w2 (calls st ++ [CallFiles d; CallFiles d])).
Proof.
  intros Hd H1 H2 Hno. unfold increment_and_save, bind.
  rewrite (next_avail_version_run H st d l0 l w1 w2) by assumption.
  rewrite next_version_in_no_match by assumption. reflexivity.
Qed.

(** X14: [increment_and_save] does not see the files this class writes.
    In a directory whose files all carry names that [basename()] gives for
    this descriptor and extension, at whatever versions, it raises
    [IndexError] and saves nothing -- for every descriptor without pattern
    characters. *)
Theorem increment_and_save_misses_own_files (st : state H) (d : str)
    (l0 l : list str) (w1 w2 : world H) :
  _dir (self st) = PyPath d ->
  glob_plain (descriptor (self st)) = true ->
  files H d (hw st) = (Ok l0, w1) ->
  files H d w1 = (Ok l, w2) ->
  Forall (fun file =>
            exists v, posixpath.basename file = basename (with_version v (self st))) l ->
  increment_and_save H st
  = (Raise IndexError,
     Build_state H (self st) w2 (calls st ++ [CallFiles d; CallFiles d])).
Proof.
  intros Hd Hp H1 H2 Hown. unfold increment_and_save, bind.
  rewrite (next_avail_version_run H st d l0 l w1 w2) by assumption.
  rewrite next_version_in_no_match; [reflexivity|].
  eapply Forall_impl; [exact Hown|].
  intros file [v Hv]. cbv beta. rewrite Hv.
  apply (written_name_fails_glob (descriptor (self st)) (ext (self st)) v Hp).
Qed.

(** X15: a successful [increment_and_save] saves once, at the path of the
    new version.  When the scan of the second listing gives [v] and the
    host accepts the save at [dir/basename] for version [v], the method
    returns [None], the object holds version [v] and is otherwise as
    before, and the host has been asked for two listings and this one
    save. *)
Theorem increment_and_save_saves_next_version (st : state H) (d : str)
    (l0 l : list str) (w1 w2 w3 : world H) (v : Z) :
  _dir (self st) = PyPath d ->
  files H d (hw st) = (Ok l0, w1) ->
  files H d w1 = (Ok l, w2) ->
  next_version_in (self st) l = Ok v ->
  saveAs H (posixpath.join d (basename (with_version v (self st)))) w2 = (Ok tt, w3) ->
  increment_and_save H st
  = (Ok PyNone,
     Build_state H (with_version v (self st)) w3
       (calls st ++ [CallFiles d; CallFiles d;
                     CallSaveAs (posixpath.join d (basename (with_version v (self st))))])).
Proof.
  intros Hd H1 H2 Hv Hs. unfold increment_and_save, bind, update_self.
  rewrite (next_avail_version_run H st d l0 l w1 w2) by assumption.
  rewrite Hv. cbv beta iota. cbn [self hw calls].
  unfold save, try_except, bind, ret.
  match goal with
  | |- context [save_at_path H ?s] =>
      rewrite (save_at_path_run H s d) by (cbn [self]; destruct (self st); exact Hd)
  end.
  cbn [self hw calls]. rewrite Hs. cbn [fst snd].
  rewrite <- app_assoc. reflexivity.
Qed.

(** X16: the methods leave the object alone.  [save] and
    [next_avail_version] change no attribute, whatever the host does and
    whether they return or raise; [increment_and_save] changes at most the
    version. *)
Theorem methods_keep_object (st : state H) :
  self (snd (save H st)) = self st
  /\ self (snd (next_avail_version H st)) = self st
  /\ _dir (self (snd (increment_and_save H st))) = _dir (self st)
  /\ descriptor (self (snd (increment_and_save H st))) = descriptor (self st)
  /\ ext (self (snd (increment_and_save H st))) = ext (self st).
Proof.
  split; [apply save_self|]. split; [apply next_avail_version_self|].
  assert (exists v, self (snd (increment_and_save H st)) = with_version v (self st))
    as [v ->]; [|repeat split; reflexivity].
  unfold increment_and_save, bind, update_self, ret.
  pose proof (next_avail_version_self H st) as H1.
  destruct (next_avail_version H st) as [[v|e] st1]; cbn [snd] in *.
  - exists v.
    match goal with
    | |- context [save H ?s] =>
        pose proof (save_self H s) as H2; destruct (save H s) as [[r|e] st2]
    end; cbn [snd self] in *; rewrite H2, H1; reflexivity.
  - exists (version (self st)). rewrite H1. destruct (self st). reflexivity.
Qed.

End HostCalls.

(** Both ways through the method: a folder that is not there, where the
    first listing raises, and the folder of the example, where the second
    listing is read. *)
Lemma next_avail_version_uses_second_listing_witness :
  next_avail_version Disk.host (Disk.start (Disk.ship 1) Disk.empty_disk)
  = (Raise (OSError "No such file or directory"),
     Build_state Disk.host (Disk.ship 1) Disk.empty_disk [CallFiles (py "proj/scenes")])
  /\ next_avail_version Disk.host (Disk.start (Disk.ship 1) Disk.ship_disk)
     = (Ok 4,
        Build_state Disk.host (Disk.ship 1) Disk.ship_disk
          [CallFiles (py "proj/scenes"); CallFiles (py "proj/scenes")]).
Proof.
  split.
  - exact (next_avail_version_uses_second_listing Disk.host
             (Disk.start (Disk.ship 1) Disk.empty_disk) (py "proj/scenes") eq_refl).
  - exact (next_avail_version_uses_second_listing Disk.host
             (Disk.start (Disk.ship 1) Disk.ship_disk) (py "proj/scenes") eq_refl).
Defined.

Lemma increment_and_save_without_match_witness :
  increment_and_save Disk.host (Disk.start Disk.tank Disk.ship_disk)
  = (Raise IndexError,
     Build_state Disk.host Disk.tank Disk.ship_disk
       [CallFiles (py "proj/scenes"); CallFiles (py "proj/scenes")]).
Proof.
  apply (increment_and_save_without_match Disk.host
           (Disk.start Disk.tank Disk.ship_disk) (py "proj/scenes")
           (Disk.stored Disk.ship_disk) (Disk.stored Disk.ship_disk)
           Disk.ship_disk Disk.ship_disk).
  - reflexivity.
  - vm_compute. reflexivity.
  - vm_compute. reflexivity.
  - compute_done.
Defined.

Lemma increment_and_save_misses_own_files_witness :
  increment_and_save Disk.host (Disk.start (Disk.ship 2) Disk.saved_disk)
  = (Raise IndexError,
     Build_state Disk.host (Disk.ship 2) Disk.saved_disk
       [CallFiles (py "proj/scenes"); CallFiles (py "proj/scenes")]).
Proof.
  apply (increment_and_save_misses_own_files Disk.host
           (Disk.start (Disk.ship 2) Disk.saved_disk) (py "proj/scenes")
           (Disk.stored Disk.saved_disk) (Disk.stored Disk.saved_disk)
           Disk.saved_disk Disk.saved_disk).
  - reflexivity.
  - reflexivity.
  - vm_compute. reflexivity.
  - vm_compute. reflexivity.
  - repeat constructor.
    + exists 1. vm_compute. reflexivity.
    + exists 2. vm_compute. reflexivity.
Defined.

Lemma increment_and_save_saves_next_version_witness :
  increment_and_save Disk.host (Disk.start (Disk.ship 1) Disk.ship_disk)
  = (Ok PyNone,
     Build_state Disk.host (Disk.ship 4)
       {| Disk.open_scene := py "proj/scenes/ship_004.ma";
          Disk.folders := [py "proj/scenes"];
          Disk.stored := Disk.stored Disk.ship_disk ++ [py "proj/scenes/ship_004.ma"];
          Disk.locked := false |}
       [CallFiles (py "proj/scenes"); CallFiles (py "proj/scenes");
        CallSaveAs (py "proj/scenes/ship_004.ma")]).
Proof.
  apply (increment_and_save_saves_next_version Disk.host
           (Disk.start (Disk.ship 1) Disk.ship_disk) (py "proj/scenes")
           (Disk.stored Disk.ship_disk) (Disk.stored Disk.ship_disk)
           Disk.ship_disk Disk.ship_disk).
  - reflexivity.
  - vm_compute. reflexivity.
  - vm_compute. reflexivity.
  - vm_compute. reflexivity.
  - vm_compute. reflexivity.
Defined.
